(** * flask-forge: the idempotent text patcher and the version helpers

    A shallow embedding of

    - [insert_once] and [insert_after_line], the two patching helpers of
      [src/forge/commands/generate_cmd.py];
    - [bump_version] and [get_current_version] of
      [scripts/forge_release.py], with the exception handler of its [main];
    - the module body of [scripts/check_version_sync.py];
    - [update_version_files] of [scripts/forge_release.py] and the
      version steps of [prepare_release];
    - the edits of the OpenAPI plugin in
      [src/forge/commands/plugin_cmd.py]: [_update_pyproject_dependencies],
      [_update_api_file], [_add_openapi_import],
      [_find_import_insertion_point] and [_add_api_init_call];
    - the import and register-function steps of [resource] on
      di_wiring.py, and the package name of [new] in [src/forge/cli.py].

    Python [str] values are lists of characters.  Characters are the code
    points 0..255, so that the whitespace class of [str.rstrip],
    [str.strip] and of the regex class [\s] can be written out.
    Exceptions are explicit: a function that may raise returns an
    [outcome]. *)

From Stdlib Require Import List Ascii Bool Arith ZArith NArith Lia.
From Stdlib Require String.
Import ListNotations String.StringSyntax.
Open Scope string_scope.
Open Scope list_scope.

(** ** Python strings *)

Module PyStr.

Definition str := list ascii.

(** A string literal. *)
Definition lit (s : String.string) : str := String.list_ascii_of_string s.

(** The line separator ["\n"]. *)
Definition nl : ascii := ascii_of_nat 10.

(** ["\n".join(lines)]: the text of a document given by its lines. *)
Fixpoint join_lines (lines : list str) : str :=
  match lines with
  | [] => []
  | [l] => l
  | l :: rest => l ++ nl :: join_lines rest
  end.

(** [text.split(sep)] for a one-character separator. *)
Fixpoint split (sep : ascii) (t : str) : list str :=
  match t with
  | [] => [[]]
  | c :: r =>
      if Ascii.eqb c sep then [] :: split sep r
      else match split sep r with
           | h :: tl => (c :: h) :: tl
           | [] => [[c]]
           end
  end.

(** The lines of a text: [text.split("\n")]. *)
Definition lines (t : str) : list str := split nl t.

(** [t.startswith(p)]. *)
Fixpoint starts_with (p t : str) : bool :=
  match p, t with
  | [], _ => true
  | _ :: _, [] => false
  | a :: p', b :: t' => Ascii.eqb a b && starts_with p' t'
  end.

(** [a == b]. *)
Fixpoint str_eqb (a b : str) : bool :=
  match a, b with
  | [], [] => true
  | x :: a', y :: b' => Ascii.eqb x y && str_eqb a' b'
  | _, _ => false
  end.

(** [sub in t]: substring containment. *)
Fixpoint str_in (sub t : str) : bool :=
  starts_with sub t ||
  match t with
  | [] => false
  | _ :: r => str_in sub r
  end.

(** [t.find(sub)]: the index of the first occurrence. *)
Fixpoint find (sub t : str) : option nat :=
  if starts_with sub t then Some 0
  else match t with
       | [] => None
       | _ :: r => option_map S (find sub r)
       end.

(** The number of positions of [t] at which [sub] occurs. *)
Fixpoint occurrences (sub t : str) : nat :=
  (if starts_with sub t then 1 else 0) +
  match t with
  | [] => 0
  | _ :: r => occurrences sub r
  end.

(** The left-to-right scan of [t.replace(old, new)] for a non-empty [old]:
    where [old] starts, [new] is emitted and the [length old] characters
    of the occurrence are skipped ([skip] counts those still to skip), so
    occurrences are replaced leftmost first and never overlap. *)
Fixpoint replace_scan (old new : str) (skip : nat) (t : str) : str :=
  match t with
  | [] => []
  | c :: r =>
      match skip with
      | S k => replace_scan old new k r
      | O =>
          if starts_with old t
          then new ++ replace_scan old new (pred (length old)) r
          else c :: replace_scan old new 0 r
      end
  end.

(** [t.replace(old, new)], every occurrence.  For the empty [old] Python
    puts [new] in front of every character and at the end. *)
Definition replace (t old new : str) : str :=
  match old with
  | [] => new ++ flat_map (fun c => c :: new) t
  | _ :: _ => replace_scan old new 0 t
  end.

(** [c.isspace()] on the code points 0..255: tab, line feed, vertical tab,
    form feed, carriage return, the separators 0x1c..0x1f, space, 0x85 and
    0xa0.  The regex class [\s] on [str] patterns is the same set. *)
Definition is_space (c : ascii) : bool :=
  let n := nat_of_ascii c in
  ((9 <=? n) && (n <=? 13)) || ((28 <=? n) && (n <=? 32))
  || (n =? 133) || (n =? 160).

(** [t.lstrip()], [t.rstrip()] and [t.strip()]. *)
Fixpoint lstrip (t : str) : str :=
  match t with
  | [] => []
  | c :: r => if is_space c then lstrip r else t
  end.

Definition rstrip (t : str) : str := rev (lstrip (rev t)).

Definition strip (t : str) : str := rstrip (lstrip t).

End PyStr.

Import PyStr.

(** ** Exceptions *)

Inductive exn : Type :=
| ReError                       (* re.error: the pattern does not compile *)
| ValueError
| ForgeReleaseError (msg : str).

Inductive outcome (A : Type) : Type :=
| Returns (a : A)
| Raises (e : exn).

Arguments Returns {A} a.
Arguments Raises {A} e.

Definition bind {A B : Type} (o : outcome A) (k : A -> outcome B) : outcome B :=
  match o with
  | Returns a => k a
  | Raises e => Raises e
  end.

Notation "x <- o ;; k" := (bind o (fun x => k))
  (at level 61, o at next level, right associativity).

(** ** The regex library

    [re.search(pattern, text, flags)] is library code.  The patchers use
    only whether it raises, whether it matches, and the span of the match
    it returns (the first one in document order). *)

Inductive search_result : Type :=
| SearchError                   (* re.error *)
| NoMatch                       (* None *)
| Match (start stop : nat).     (* m.span() *)

(** pattern, text, whether [re.DOTALL] is passed *)
Definition searcher := str -> str -> bool -> search_result.

(** [re.search] on patterns without metacharacters: a plain substring
    search.  It runs the patchers on concrete inputs. *)
Definition literal_search : searcher :=
  fun pattern text _ =>
    match find pattern text with
    | Some i => Match i (i + length pattern)
    | None => NoMatch
    end.

(** ** generate_cmd.py: the patchers *)

Section Patcher.

Variable re_search : searcher.

(** [insert_once(text, needle, anchor, before=False, fallback_pattern=None)].
    The four steps in the order of the source: the duplicate check, the
    marker step ([text.replace] with the condition [not before]), the
    regex step (skipped for [None] and for the empty pattern, which are
    both false in [if fallback_pattern:]), the last resort. *)
Definition insert_once (text needle anchor : str) (before : bool)
    (fallback_pattern : option str) : outcome str :=
  if str_in needle text then Returns text
  else if str_in anchor text then
    Returns (replace text anchor
               (if negb before then needle ++ nl :: anchor
                else anchor ++ nl :: needle))
  else
    let last_resort := Returns (rstrip text ++ nl :: needle ++ [nl]) in
    match fallback_pattern with
    | Some ((_ :: _) as pattern) =>
        match re_search pattern text true with
        | SearchError => Raises ReError
        | Match start stop =>
            if before
            then Returns (firstn start text ++ needle ++ nl :: skipn start text)
            else Returns (firstn stop text ++ nl :: needle ++ skipn stop text)
        | NoMatch => last_resort
        end
    | _ => last_resort
    end.


(** [insert_after_line(text, after_pattern, payload)]: the search runs
    first, without flags; [idx] is [m.end()]. *)
Definition insert_after_line (text after_pattern payload : str) : outcome str :=
  match re_search after_pattern text false with
  | SearchError => Raises ReError
  | NoMatch => Returns (if str_in payload text then text else payload ++ text)
  | Match _ idx =>
      Returns (if str_in payload text then text
               else firstn idx text ++ payload ++ skipn idx text)
  end.

End Patcher.

(** [a] is [b] with some characters left out. *)
Inductive Subseq : str -> str -> Prop :=
| Subseq_nil : Subseq [] []
| Subseq_take (c : ascii) (a b : str) : Subseq a b -> Subseq (c :: a) (c :: b)
| Subseq_skip (c : ascii) (a b : str) : Subseq a b -> Subseq a (c :: b).

(** ** forge_release.py and check_version_sync.py *)

Module Release.

(** *** [int(s)] and [str(n)] *)

Definition is_digit (c : ascii) : bool :=
  let n := nat_of_ascii c in (48 <=? n) && (n <=? 57).

Definition digit_val (c : ascii) : N := N.of_nat (nat_of_ascii c - 48).

Definition digit_char (d : N) : ascii := ascii_of_nat (48 + N.to_nat d).

(** The digits of a base-10 literal, read left to right into [acc].
    Underscores may stand singly between digits; [after_digit] tells
    whether the previous character was a digit. *)
Fixpoint parse_digits (acc : N) (after_digit : bool) (t : str) : option N :=
  match t with
  | [] => if after_digit then Some acc else None
  | c :: r =>
      if is_digit c then parse_digits (10 * acc + digit_val c) true r
      else if Ascii.eqb c "_" && after_digit then parse_digits acc false r
      else None
  end.

(** The number a run of digits denotes, continuing from [acc]. *)
Definition value (acc : N) (l : str) : N :=
  fold_left (fun a c => (10 * a + digit_val c)%N) l acc.

(** The whitespace that [int] drops around a literal.  On the code points
    0..255 it is tab, line feed, vertical tab, form feed, carriage return,
    space, 0x85 and 0xa0: the separators 0x1c..0x1f, which [str.strip]
    drops, are no whitespace for [int]. *)
Definition int_space (c : ascii) : bool :=
  let n := nat_of_ascii c in
  ((9 <=? n) && (n <=? 13)) || (n =? 32) || (n =? 133) || (n =? 160).

Fixpoint int_lstrip (t : str) : str :=
  match t with
  | [] => []
  | c :: r => if int_space c then int_lstrip r else t
  end.

Definition int_strip (t : str) : str := rev (int_lstrip (rev (int_lstrip t))).

(** [int(s)]: whitespace around the literal is dropped, then an optional
    sign and the digits.  [None] stands for [ValueError].  The
    interpreter's configurable cap on the number of digits is left out. *)
Definition py_int (s : str) : option Z :=
  match int_strip s with
  | c :: r =>
      if Ascii.eqb c "+" then option_map Z.of_N (parse_digits 0 false r)
      else if Ascii.eqb c "-"
      then option_map (fun n => Z.opp (Z.of_N n)) (parse_digits 0 false r)
      else option_map Z.of_N (parse_digits 0 false (c :: r))
  | [] => None
  end.

(** The decimal digits of [n], most significant first.  [fuel] bounds the
    number of digits. *)
Fixpoint digits_of (fuel : nat) (n : N) : str :=
  match fuel with
  | O => []
  | S f =>
      if (n <? 10)%N then [digit_char n]
      else digits_of f (n / 10) ++ [digit_char (n mod 10)]
  end.

(** A number has no more decimal digits than binary ones. *)
Definition str_of_N (n : N) : str := digits_of (S (N.to_nat (N.log2 n))) n.

(** [str(z)], also what [f"{z}"] prints. *)
Definition str_of_Z (z : Z) : str :=
  match z with
  | Z0 => str_of_N 0
  | Zpos p => str_of_N (Npos p)
  | Zneg p => "-"%char :: str_of_N (Npos p)
  end.

(** Characters of a printed integer: a digit or the minus sign. *)
Definition plain (c : ascii) : bool := is_digit c || Ascii.eqb c "-".

(** *** [bump_version] *)

(** [f"{major}.{minor}.{patch}"] *)
Definition version_string (major minor patch : Z) : str :=
  str_of_Z major ++ "."%char :: str_of_Z minor ++ "."%char :: str_of_Z patch.

(** [bump_version(current_version, version_type)] *)
Definition bump_version (current_version version_type : str) : outcome str :=
  match map py_int (split "." current_version) with
  | [Some major; Some minor; Some patch] =>
      if str_eqb version_type (lit "patch") then
        Returns (version_string major minor (patch + 1))
      else if str_eqb version_type (lit "minor") then
        Returns (version_string major (minor + 1) 0)
      else if str_eqb version_type (lit "major") then
        Returns (version_string (major + 1) 0 0)
      else
        Raises (ForgeReleaseError (lit "Invalid version type: " ++ version_type))
  | _ => Raises ValueError
  end.

(** *** The two version searches

    [re.search(pattern, text).group(1)] for the patterns
    [NAME\s*=\s*Q([^Q]+)Q], where [NAME] is literal text and [Q] stands
    for the double quote.  Every greedy run is followed by a character
    outside its class, so a match attempt at a position never backtracks. *)

Definition dquote : ascii := ascii_of_nat 34.

(** [s] between double quotes, to write file contents down. *)
Definition quoted (s : str) : str := dquote :: s ++ [dquote].

(** The longest run of characters other than the double quote. *)
Fixpoint unquoted_run (t : str) : str :=
  match t with
  | [] => []
  | c :: r => if Ascii.eqb c dquote then [] else c :: unquoted_run r
  end.

(** The match attempt at the start of [t]; the result is group 1. *)
Definition match_assignment (name t : str) : option str :=
  if starts_with name t then
    match lstrip (skipn (length name) t) with
    | c :: r =>
        if Ascii.eqb c "=" then
          match lstrip r with
          | q :: v =>
              if Ascii.eqb q dquote then
                match unquoted_run v, skipn (length (unquoted_run v)) v with
                | (_ :: _) as value, q' :: _ =>
                    if Ascii.eqb q' dquote then Some value else None
                | _, _ => None
                end
              else None
          | [] => None
          end
        else None
    | [] => None
    end
  else None.

(** The first position of [t] where the attempt succeeds. *)
Fixpoint search_assignment (name t : str) : option str :=
  match match_assignment name t with
  | Some value => Some value
  | None =>
      match t with
      | [] => None
      | _ :: r => search_assignment name r
      end
  end.

(** [NAME] in [\nversion\s*=\s*Q([^Q]+)Q] and in
    [__version__\s*=\s*Q([^Q]+)Q]. *)
Definition pyproject_name : str := nl :: lit "version".
Definition init_name : str := lit "__version__".

(** *** [get_current_version] and the handler of [main] *)

(** [get_current_version()], on the contents of the two files. *)
Definition get_current_version (pyproject_content init_content : str)
    : outcome (str * str) :=
  match search_assignment pyproject_name pyproject_content,
        search_assignment init_name init_content with
  | Some pyproject_version, Some init_version =>
      if negb (str_eqb pyproject_version init_version) then
        Raises (ForgeReleaseError
                  (lit "Version mismatch: pyproject.toml=" ++ pyproject_version
                   ++ lit " vs __init__.py=" ++ init_version))
      else Returns (pyproject_version, init_version)
  | _, _ =>
      Raises (ForgeReleaseError
                (lit "Could not find version in pyproject.toml or __init__.py"))
  end.

(** The exit status [main] gives a command: every [except] clause ends in
    [sys.exit(1)]; a command that returns lets the process end with 0. *)
Definition main_exit_code {A : Type} (command : outcome A) : Z :=
  match command with
  | Returns _ => 0
  | Raises (ForgeReleaseError _) => 1
  | Raises _ => 1
  end%Z.

(** *** check_version_sync.py *)

(** What the script printed and its exit status. *)
Record run : Type := { printed : list str; exit_code : Z }.

(** The module body, on the contents of the two files. *)
Definition check_version_sync (pyproj pkg : str) : run :=
  match search_assignment pyproject_name pyproj,
        search_assignment init_name pkg with
  | Some v1, Some v2 =>
      if negb (str_eqb v1 v2) then
        {| printed := [lit "Version mismatch: pyproject.toml=" ++ v1
                       ++ lit " vs __init__=" ++ v2];
           exit_code := 2 |}
      else
        {| printed := [lit "Version OK: " ++ v1]; exit_code := 0 |}
  | _, _ =>
      {| printed :=
           [lit "Could not find version in pyproject.toml or src/forge/__init__.py"];
         exit_code := 1 |}
  end.

End Release.

(** ** plugin_cmd.py: the OpenAPI plugin's edits

    The helpers work on the list of lines of a file.  A helper that
    changes its [lines] argument in place and returns a flag is a function
    to the flag and the list afterwards; a helper that reads and writes a
    file is a function of the content to the flag and the content
    afterwards. *)

Module Plugin.

Definition OPENAPI_IMPORT : str := lit "from .ext.openapi import configure_openapi".
Definition API_INIT_CALL : str := lit "configure_openapi(app)".
Definition FORGE_AUTO_IMPORTS : str := lit "# [forge:auto-imports]".
Definition FORGE_AUTO_INIT : str := lit "# [forge:auto-init]".

(** [t.endswith(s)] *)
Definition ends_with (s t : str) : bool := starts_with (rev s) (rev t).

(** The truth value of [line.strip()]. *)
Definition nonblank (line : str) : bool :=
  match strip line with
  | [] => false
  | _ :: _ => true
  end.

(** [lines.insert(idx, x)] for an index that is not negative. *)
Definition list_insert (idx : nat) (x : str) (lines : list str) : list str :=
  firstn idx lines ++ x :: skipn idx lines.

(** The condition of the first loop of [_find_import_insertion_point]. *)
Definition is_import_line (line : str) : bool :=
  nonblank line
  && (str_in (lit "import ") line || str_in (lit "from ") line)
  && negb (starts_with (lit "#") line).

(** The first loop from line [i] on: the index of the last import line,
    [last] when there is none ([None] is the source's -1). *)
Fixpoint last_import_idx (i : nat) (lines : list str) (last : option nat)
    : option nat :=
  match lines with
  | [] => last
  | line :: rest =>
      last_import_idx (S i) rest (if is_import_line line then Some i else last)
  end.

Definition not_import (line : str) : bool := negb (is_import_line line).

(** The condition of the second loop: neither blank nor a comment. *)
Definition is_code_line (line : str) : bool :=
  nonblank line && negb (starts_with (lit "#") line).

(** The second loop from line [i] on. *)
Fixpoint first_code_idx (i : nat) (lines : list str) : option nat :=
  match lines with
  | [] => None
  | line :: rest =>
      if is_code_line line then Some i else first_code_idx (S i) rest
  end.

(** [_find_import_insertion_point(lines)] *)
Definition _find_import_insertion_point (lines : list str) : nat :=
  match last_import_idx 0 lines None with
  | Some last => last + 1
  | None =>
      match first_code_idx 0 lines with
      | Some i => i
      | None => 0
      end
  end.

(** The marker loop of [_add_openapi_import]: the first line that holds
    the marker becomes the import, a line break and the marker. *)
Fixpoint replace_marker_line (lines : list str) : option (list str) :=
  match lines with
  | [] => None
  | line :: rest =>
      if str_in FORGE_AUTO_IMPORTS line
      then Some ((OPENAPI_IMPORT ++ nl :: FORGE_AUTO_IMPORTS) :: rest)
      else option_map (cons line) (replace_marker_line rest)
  end.

(** [_add_openapi_import(lines)] *)
Definition _add_openapi_import (lines : list str) : bool * list str :=
  if existsb (str_in OPENAPI_IMPORT) lines then (false, lines)
  else
    match replace_marker_line lines with
    | Some lines' => (true, lines')
    | None =>
        (true, list_insert (_find_import_insertion_point lines) OPENAPI_IMPORT lines)
    end.

(** The inner loop of [_add_api_init_call] over the lines after the
    [def register_http(app] line. *)
Fixpoint insert_init_call (body : list str) : option (list str) :=
  match body with
  | [] => None
  | line :: rest =>
      if str_in FORGE_AUTO_INIT line
      then Some (line :: (lit "    " ++ API_INIT_CALL) :: rest)
      else if nonblank line && negb (starts_with (lit "    #") line)
      then Some ((lit "    " ++ API_INIT_CALL) :: line :: rest)
      else option_map (cons line) (insert_init_call rest)
  end.

(** The outer loop: it stops at the first [def register_http(app] line. *)
Fixpoint at_register_http (lines : list str) : option (list str) :=
  match lines with
  | [] => None
  | line :: rest =>
      option_map (cons line)
        (if str_in (lit "def register_http(app") line
         then insert_init_call rest
         else at_register_http rest)
  end.

(** [_add_api_init_call(lines)] *)
Definition _add_api_init_call (lines : list str) : bool * list str :=
  if existsb (str_in API_INIT_CALL) lines then (false, lines)
  else
    match at_register_http lines with
    | Some lines' => (true, lines')
    | None => (false, lines)
    end.

(** [_update_api_file(api_file)] on the content of the file: the flag it
    returns and the content of the file afterwards. *)
Definition _update_api_file (content : str) : bool * str :=
  let lines := split nl content in
  let '(import_added, lines) :=
    if negb (str_in OPENAPI_IMPORT content) then _add_openapi_import lines
    else (false, lines) in
  let '(call_added, lines) :=
    if negb (str_in API_INIT_CALL content) then _add_api_init_call lines
    else (false, lines) in
  let modified := import_added || call_added in
  (modified, if modified then join_lines lines else content).

(** A line holds no line break. *)
Definition plain_line (l : str) : bool :=
  forallb (fun c => negb (Ascii.eqb c nl)) l.

(** Names for what the loops above write and test. *)

(** The line [_add_api_init_call] inserts. *)
Definition call_line : str := lit "    " ++ API_INIT_CALL.

(** The line the marker loop of [_add_openapi_import] writes. *)
Definition import_and_marker : str := OPENAPI_IMPORT ++ nl :: FORGE_AUTO_IMPORTS.

(** A line at which the inner loop of [_add_api_init_call] stops. *)
Definition stops_init_scan (line : str) : bool :=
  str_in FORGE_AUTO_INIT line
  || (nonblank line && negb (starts_with (lit "    #") line)).

(** The test of the outer loop of [_add_api_init_call]. *)
Definition is_register_http (line : str) : bool :=
  str_in (lit "def register_http(app") line.

(** The text that marks the dependencies array. *)
Definition DEPS_HEAD : str := lit "dependencies = [".

Definition required_deps : list str := [lit "flask-smorest"; lit "marshmallow"].

(** [re.search(rf'[QUOTES]({dep})[Q><=~!\s]', content)] is a match, for a
    [dep] without regex metacharacters: a single or double quote, the
    name, and one of the double quote, [>], [<], [=], [~], [!] or a
    whitespace character. *)
Definition is_quote (c : ascii) : bool :=
  Ascii.eqb c Release.dquote || Ascii.eqb c "'".

Definition ends_dep_name (c : ascii) : bool :=
  Ascii.eqb c Release.dquote || Ascii.eqb c ">" || Ascii.eqb c "<"
  || Ascii.eqb c "=" || Ascii.eqb c "~" || Ascii.eqb c "!" || is_space c.

Definition dep_at (dep t : str) : bool :=
  match t with
  | q :: r =>
      is_quote q && starts_with dep r
      && match skipn (length dep) r with
         | c :: _ => ends_dep_name c
         | [] => false
         end
  | [] => false
  end.

Fixpoint dep_declared (dep content : str) : bool :=
  dep_at dep content ||
  match content with
  | [] => false
  | _ :: r => dep_declared dep r
  end.

(** [line.rfind(c)], [None] for -1. *)
Fixpoint rfind_char (c : ascii) (t : str) : option nat :=
  match t with
  | [] => None
  | x :: r =>
      match rfind_char c r with
      | Some i => Some (S i)
      | None => if Ascii.eqb x c then Some 0 else None
      end
  end.

(** [f'Q{dep}>=0Q,'] with the double quote for [Q]. *)
Definition dep_entry (dep : str) : str :=
  Release.dquote :: dep ++ lit ">=0" ++ [Release.dquote; ","%char].

(** The loop of [_update_pyproject_dependencies] over the lines: only the
    first line that holds [dependencies = [] is treated. *)
Fixpoint add_missing_deps (missing : list str) (lines : list str) : list str :=
  match lines with
  | [] => []
  | line :: rest =>
      if str_in (lit "dependencies = [") line then
        if ends_with (lit "]") (strip line) then
          let closing_bracket :=
            match rfind_char "]" line with
            | Some i => i
            | None => length line - 1
            end in
          (firstn closing_bracket line ++ concat (map dep_entry missing)
           ++ skipn closing_bracket line) :: rest
        else
          line :: map (fun dep => lit "    " ++ dep_entry dep) missing ++ rest
      else line :: add_missing_deps missing rest
  end.

(** [_update_pyproject_dependencies(pyproject_path)] on the content of the
    file: the flag it returns and the content of the file afterwards. *)
Definition _update_pyproject_dependencies (content : str) : bool * str :=
  let missing_deps :=
    filter (fun dep => negb (dep_declared dep content)) required_deps in
  match missing_deps with
  | [] => (false, content)
  | _ :: _ => (true, join_lines (add_missing_deps missing_deps (split nl content)))
  end.

End Plugin.

(** ** cli.py: the package name of a new project *)

Module Cli.

(** [(package or project_name).strip().replace("-", "_")] in [new]. *)
Definition package_name (package : option str) (project_name : str) : str :=
  let chosen :=
    match package with
    | Some ((_ :: _) as given) => given
    | _ => project_name
    end in
  replace (strip chosen) (lit "-") (lit "_").

(** What [replace("-", "_")] does to one character. *)
Definition hyphen_to_underscore (c : ascii) : ascii :=
  if Ascii.eqb "-" c then "_"%char else c.

End Cli.

(** ** forge_release.py: writing the version

    [update_version_files] rewrites both files with
    [re.sub(r'(NAME\s*=\s*Q)[^Q]+(Q)', f"\\g<1>{new_version}\\g<2>", content)],
    [Q] standing for the double quote.  The replacement is a template:
    the regex library compiles it before it looks for a match and raises
    on a template it rejects.  The compiler is library code; a compiled
    template is the function from the texts of the match and of its
    groups 1 and 2 to the replacement text. *)

Module VersionFiles.

Import Release.

Definition template_compiler := str -> outcome (str -> str -> str -> str).

(** The text a leading [\s*] matches. *)
Fixpoint take_spaces (t : str) : str :=
  match t with
  | [] => []
  | c :: r => if is_space c then c :: take_spaces r else []
  end.

(** The match attempt at the start of [t] with its groups: the text of
    group 1 and the value that is replaced; group 2 is the closing quote. *)
Definition match_groups (name t : str) : option (str * str) :=
  if starts_with name t then
    let r := skipn (length name) t in
    match lstrip r with
    | c :: r1 =>
        if Ascii.eqb c "=" then
          match lstrip r1 with
          | q :: v =>
              if Ascii.eqb q dquote then
                match unquoted_run v, skipn (length (unquoted_run v)) v with
                | (_ :: _) as value, q' :: _ =>
                    if Ascii.eqb q' dquote
                    then Some (name ++ take_spaces r ++ "="%char
                                 :: take_spaces r1 ++ [dquote],
                               value)
                    else None
                | _, _ => None
                end
              else None
          | [] => None
          end
        else None
    | [] => None
    end
  else None.

(** The scan of [re.sub]: every match, leftmost first and not
    overlapping, is replaced by what the template makes of its groups;
    [skip] counts the characters of the current match still to pass. *)
Fixpoint sub_scan (name : str) (repl : str -> str -> str -> str) (skip : nat)
    (t : str)
    : str :=
  match t with
  | [] => []
  | c :: r =>
      match skip with
      | S k => sub_scan name repl k r
      | O =>
          match match_groups name t with
          | Some (g1, value) =>
              repl (g1 ++ value ++ [dquote]) g1 [dquote]
              ++ sub_scan name repl (length g1 + length value) r
          | None => c :: sub_scan name repl 0 r
          end
      end
  end.

(** [update_version_files(new_version)] on the contents of the two files:
    the contents afterwards. *)
Definition update_version_files (compile_template : template_compiler)
    (new_version pyproject_content init_content : str) : outcome (str * str) :=
  pyproject_repl <- compile_template (lit "\g<1>" ++ new_version ++ lit "\g<2>") ;;
  let pyproject_content := sub_scan pyproject_name pyproject_repl 0 pyproject_content in
  init_repl <- compile_template (lit "\g<1>" ++ new_version ++ lit "\g<2>") ;;
  let init_content := sub_scan init_name init_repl 0 init_content in
  Returns (pyproject_content, init_content).

(** The template compiler on templates [\g<1>TEXT\g<2>] with a [TEXT]
    free of backslashes; it runs [update_version_files] on concrete
    inputs. *)
Definition plain_template : template_compiler :=
  fun template =>
    let middle := firstn (length template - 10) (skipn 5 template) in
    if starts_with (lit "\g<1>") template
       && Plugin.ends_with (lit "\g<2>") template
       && (10 <=? length template)
       && negb (existsb (Ascii.eqb "\") middle)
    then Returns (fun _ g1 g2 => g1 ++ middle ++ g2)
    else Raises ReError.

(** The text in front of the opening quote of a match: the name, an
    equals sign, whitespace around it. *)
Definition is_header (name header : str) : Prop :=
  exists ws1 ws2,
    header = name ++ ws1 ++ "="%char :: ws2
    /\ forallb is_space ws1 = true /\ forallb is_space ws2 = true.

Definition quote_free (t : str) : bool :=
  forallb (fun c => negb (Ascii.eqb c dquote)) t.

End VersionFiles.

(** ** generate_cmd.py: the first steps on the DI wiring

    [resource] reads di_wiring.py into [w], puts the two imports of the
    new resource behind the import of [init_engine] with
    [insert_after_line], and then appends the function
    [register_NAME] unless [w] holds its head. *)

Module Wiring.

Import Release.

Definition import_repo (pkg bc Entity : str) : str :=
  lit "from " ++ pkg ++ lit ".infra." ++ bc
  ++ lit ".repo_sqlalchemy import SqlAlchemy" ++ Entity ++ lit "Repository"
  ++ [nl].

Definition import_service (pkg bc Entity : str) : str :=
  lit "from " ++ pkg ++ lit ".app." ++ bc ++ lit ".services import "
  ++ Entity ++ lit "Service" ++ [nl].

Definition after_pattern : str :=
  lit "from\s+\.\.\s*infra\.db\.base\s+import\s+init_engine\s*\n".

Definition func_head (name : str) : str :=
  lit "def register_" ++ name ++ lit "(container".

(** The text appended to [w]: the function [register_NAME]. *)
Definition register_function (bc name Entity : str) : str :=
  [nl; nl; nl]
  ++ lit "def register_" ++ name ++ lit "(container: Container) -> None:" ++ [nl]
  ++ lit "    container.register(" ++ [nl]
  ++ lit "        " ++ quoted (bc ++ lit "." ++ name ++ lit ".repo") ++ lit "," ++ [nl]
  ++ lit "        lambda: SqlAlchemy" ++ Entity
  ++ lit "Repository(container.get(" ++ quoted (lit "db.session_factory")
  ++ lit "))," ++ [nl]
  ++ lit "    )" ++ [nl]
  ++ lit "    container.register(" ++ [nl]
  ++ lit "        " ++ quoted (bc ++ lit "." ++ name ++ lit ".service") ++ lit "," ++ [nl]
  ++ lit "        container.factory(" ++ Entity ++ lit "Service, repo="
  ++ quoted (bc ++ lit "." ++ name ++ lit ".repo") ++ lit ")," ++ [nl]
  ++ lit "    )" ++ [nl].

(** The two steps on [w], in the order of the source. *)
Definition wiring_steps (re_search : searcher) (pkg bc name Entity w : str)
    : outcome str :=
  w <- insert_after_line re_search w after_pattern
         (import_repo pkg bc Entity ++ import_service pkg bc Entity) ;;
  Returns (if negb (str_in (func_head name) w)
           then w ++ register_function bc name Entity
           else w).

End Wiring.

(** ** Facts about the string primitives *)

Section StringFacts.

Lemma starts_with_iff (p t : str) :
  starts_with p t = true <-> exists r, t = p ++ r.
Proof.
  revert t; induction p as [|a p IH]; intros t; simpl.
  - split; [intros _; now exists t | reflexivity].
  - destruct t as [|b t].
    + split; [discriminate | intros [r Hr]; discriminate].
    + rewrite andb_true_iff, Ascii.eqb_eq, IH. split.
      * intros [-> [r ->]]. now exists r.
      * intros [r Hr]. injection Hr as -> ->. split; [reflexivity | now exists r].
Qed.

Lemma starts_with_app (p r : str) : starts_with p (p ++ r) = true.
Proof. apply starts_with_iff. now exists r. Qed.

Lemma str_in_iff (sub t : str) :
  str_in sub t = true <-> exists a b, t = a ++ sub ++ b.
Proof.
  induction t as [|c t IH].
  - simpl. rewrite orb_false_r, starts_with_iff. split.
    + intros [r Hr]. now exists [], r.
    + intros [a [b H]]. symmetry in H.
      apply app_eq_nil in H as [_ H]. apply app_eq_nil in H as [-> _].
      now exists [].
  - simpl. rewrite orb_true_iff, starts_with_iff, IH. split.
    + intros [[r Hr] | [a [b H]]].
      * now exists [], r.
      * exists (c :: a), b. now rewrite H.
    + intros [[|c' a] [b H]].
      * left. now exists b.
      * right. injection H as _ H. now exists a, b.
Qed.

Lemma str_in_middle (sub a b : str) : str_in sub (a ++ sub ++ b) = true.
Proof. apply str_in_iff. now exists a, b. Qed.

Lemma str_in_app (sub x a b : str) :
  str_in sub x = true -> str_in sub (a ++ x ++ b) = true.
Proof.
  intros H. apply str_in_iff in H as [u [v ->]]. apply str_in_iff.
  exists (a ++ u), (v ++ b). now rewrite <- !app_assoc.
Qed.

Lemma str_in_app_l (sub x b : str) :
  str_in sub x = true -> str_in sub (x ++ b) = true.
Proof. intros H. exact (str_in_app sub x [] b H). Qed.

Lemma str_in_cons (sub x : str) (c : ascii) :
  str_in sub x = true -> str_in sub (c :: x) = true.
Proof. intros H. simpl. rewrite H. apply orb_true_r. Qed.

(** Where [old] occurs, the replacement text lands in the result. *)
Lemma str_in_replace (sub t old new : str) :
  str_in old t = true -> str_in sub new = true ->
  str_in sub (replace t old new) = true.
Proof.
  intros Hold Hnew. unfold replace. destruct old as [|o old'].
  - now apply str_in_app_l.
  - induction t as [|c t IH].
    + simpl in Hold. discriminate.
    + change (str_in (o :: old') (c :: t))
        with (starts_with (o :: old') (c :: t) || str_in (o :: old') t) in Hold.
      change (replace_scan (o :: old') new 0 (c :: t))
        with (if starts_with (o :: old') (c :: t)
              then new ++ replace_scan (o :: old') new (pred (length (o :: old'))) t
              else c :: replace_scan (o :: old') new 0 t).
      destruct (starts_with (o :: old') (c :: t)).
      * now apply str_in_app_l.
      * apply str_in_cons, IH. exact Hold.
Qed.

(** Skipping the rest of an occurrence. *)
Lemma replace_scan_skip (old new a b : str) :
  replace_scan old new (length a) (a ++ b) = replace_scan old new 0 b.
Proof.
  induction a as [|c a IH]; simpl; [reflexivity | exact IH].
Qed.

Lemma replace_scan_absent (old new t : str) :
  str_in old t = false -> replace_scan old new 0 t = t.
Proof.
  induction t as [|c t IH]; [reflexivity|].
  intros H.
  change (str_in old (c :: t))
    with (starts_with old (c :: t) || str_in old t) in H.
  apply orb_false_iff in H as [H1 H2].
  change (replace_scan old new 0 (c :: t))
    with (if starts_with old (c :: t)
          then new ++ replace_scan old new (pred (length old)) t
          else c :: replace_scan old new 0 t).
  rewrite H1. f_equal. now apply IH.
Qed.

(** [rstrip] only removes a run of trailing whitespace. *)
Lemma lstrip_split (t : str) :
  exists ws, t = ws ++ lstrip t /\ forallb is_space ws = true.
Proof.
  induction t as [|c t [ws [H1 H2]]]; simpl.
  - now exists [].
  - destruct (is_space c) eqn:E.
    + exists (c :: ws). simpl. rewrite E, H2. split; [now f_equal | reflexivity].
    + now exists [].
Qed.

Lemma rstrip_split (t : str) :
  exists ws, t = rstrip t ++ ws /\ forallb is_space ws = true.
Proof.
  unfold rstrip. destruct (lstrip_split (rev t)) as [ws [H1 H2]].
  exists (rev ws). split.
  - rewrite <- rev_app_distr, <- H1. symmetry. apply rev_involutive.
  - rewrite forallb_forall in *. intros x Hx. apply H2. now apply in_rev.
Qed.

End StringFacts.

(** ** The patcher: [insert_once] *)

(** The text of the goal has [sub] between [a] and [b]. *)
Ltac occurs_between a b :=
  apply str_in_iff; exists a, b; simpl;
  rewrite <- ?app_assoc, ?app_nil_r; reflexivity.

Section PatcherFacts.

Variable re_search : searcher.

(** Step 1 wins: a text that holds the needle comes back as it is. *)
Lemma insert_once_present (text needle anchor : str) (before : bool)
    (fb : option str) :
  str_in needle text = true ->
  insert_once re_search text needle anchor before fb = Returns text.
Proof. intros H. unfold insert_once. now rewrite H. Qed.

(** Whatever step produced it, a returned text holds the needle. *)
Lemma insert_once_returns_payload (text needle anchor : str) (before : bool)
    (fb : option str) (r : str) :
  insert_once re_search text needle anchor before fb = Returns r ->
  str_in needle r = true.
Proof.
  unfold insert_once; cbv zeta.
  destruct (str_in needle text) eqn:Hn.
  { intros [= <-]. exact Hn. }
  destruct (str_in anchor text) eqn:Ha.
  { intros [= <-]. apply str_in_replace; [exact Ha|].
    destruct before; simpl.
    - occurs_between (anchor ++ [nl]) (@nil ascii).
    - occurs_between (@nil ascii) (nl :: anchor). }
  assert (Hlast : str_in needle (rstrip text ++ nl :: needle ++ [nl]) = true).
  { occurs_between (rstrip text ++ [nl]) [nl]. }
  destruct fb as [[|p0 p]|]; try (intros [= <-]; exact Hlast).
  destruct (re_search (p0 :: p) text true) as [| |start stop];
    [intros H; discriminate H | intros [= <-]; exact Hlast |].
  destruct before; intros [= <-].
  - occurs_between (firstn start text) (nl :: skipn start text).
  - occurs_between (firstn stop text ++ [nl]) (skipn stop text).
Qed.


End PatcherFacts.

Lemma occurrences_pos (sub t : str) :
  str_in sub t = true <-> 1 <= occurrences sub t.
Proof.
  induction t as [|c t IH].
  - simpl. destruct (starts_with sub []); simpl; split; (lia || discriminate || reflexivity).
  - change (str_in sub (c :: t)) with (starts_with sub (c :: t) || str_in sub t).
    change (occurrences sub (c :: t))
      with ((if starts_with sub (c :: t) then 1 else 0) + occurrences sub t).
    destruct (starts_with sub (c :: t)); simpl.
    + split; [lia | reflexivity].
    + exact IH.
Qed.

(** Where the anchor occurs once, the marker step rewrites that one place. *)
Lemma replace_single (old new pre post : str) :
  old <> [] ->
  find old (pre ++ old ++ post) = Some (length pre) ->
  str_in old post = false ->
  replace (pre ++ old ++ post) old new = pre ++ new ++ post.
Proof.
  intros Hne. unfold replace. destruct old as [|o old']; [congruence|].
  clear Hne. induction pre as [|c pre IH]; intros Hfind Hpost.
  - change (replace_scan (o :: old') new 0 ([] ++ (o :: old') ++ post))
      with (if starts_with (o :: old') ((o :: old') ++ post)
            then new ++ replace_scan (o :: old') new (length old') (old' ++ post)
            else o :: replace_scan (o :: old') new 0 (old' ++ post)).
    rewrite starts_with_app, replace_scan_skip, replace_scan_absent by assumption.
    reflexivity.
  - change (find (o :: old') ((c :: pre) ++ (o :: old') ++ post))
      with (if starts_with (o :: old') (c :: pre ++ (o :: old') ++ post)
            then Some 0
            else option_map S (find (o :: old') (pre ++ (o :: old') ++ post)))
      in Hfind.
    change (replace_scan (o :: old') new 0 ((c :: pre) ++ (o :: old') ++ post))
      with (if starts_with (o :: old') (c :: pre ++ (o :: old') ++ post)
            then new ++ replace_scan (o :: old') new (length old')
                          (pre ++ (o :: old') ++ post)
            else c :: replace_scan (o :: old') new 0 (pre ++ (o :: old') ++ post)).
    destruct (starts_with (o :: old') (c :: pre ++ (o :: old') ++ post)).
    + discriminate Hfind.
    + destruct (find (o :: old') (pre ++ (o :: old') ++ post)) as [i|] eqn:E;
        [|discriminate Hfind].
      injection Hfind as ->. simpl. f_equal. now apply IH.
Qed.

(** The marker step on a text that holds the anchor once: the text before
    the anchor and the text after it come back untouched. *)
Lemma insert_once_single_anchor (rs : searcher) (pre post needle anchor : str)
    (before : bool) (fb : option str) :
  anchor <> [] ->
  str_in needle (pre ++ anchor ++ post) = false ->
  find anchor (pre ++ anchor ++ post) = Some (length pre) ->
  str_in anchor post = false ->
  insert_once rs (pre ++ anchor ++ post) needle anchor before fb
  = Returns (pre ++ (if negb before then needle ++ nl :: anchor
                     else anchor ++ nl :: needle) ++ post).
Proof.
  intros Hne Hn Hfind Hpost. unfold insert_once.
  rewrite Hn, (str_in_middle anchor pre post). f_equal.
  now apply replace_single.
Qed.

Example insert_once_single_anchor_run :
  insert_once literal_search
    (join_lines [lit "a"; lit "# [marker]"; lit "b"]) (lit "x")
    (lit "# [marker]") false (Some (lit "a"))
  = Returns (join_lines [lit "a"; lit "x"; lit "# [marker]"; lit "b"]).
Proof.
  apply (insert_once_single_anchor literal_search
           (lit "a" ++ [nl]) (nl :: lit "b") (lit "x") (lit "# [marker]")
           false (Some (lit "a")));
    [discriminate | reflexivity | reflexivity | reflexivity].
Qed.

(** ** Properties of [insert_once] *)




(** C2: applying [insert_once] a second time with the same arguments gives
    what the first application gave, and a document that already holds the
    payload is returned unchanged. *)
Theorem insert_once_idempotent (rs : searcher) (text needle anchor : str)
    (before : bool) (fb : option str) :
  (r <- insert_once rs text needle anchor before fb ;;
   insert_once rs r needle anchor before fb)
  = insert_once rs text needle anchor before fb
  /\ (str_in needle text = true ->
      insert_once rs text needle anchor before fb = Returns text).
Proof.
  split; [|apply insert_once_present].
  destruct (insert_once rs text needle anchor before fb) as [r|e] eqn:E;
    [|reflexivity].
  simpl. apply insert_once_present.
  exact (insert_once_returns_payload _ _ _ _ _ _ _ E).
Qed.

Lemma insert_once_idempotent_witness :
  let doc := join_lines [lit "a"; lit "x"; lit "# [marker]"; lit "b"] in
  str_in (lit "x") doc = true
  /\ insert_once literal_search doc (lit "x") (lit "# [marker]") false None
     = Returns doc.
Proof.
  split; [reflexivity|].
  apply (proj2 (insert_once_idempotent literal_search
                  (join_lines [lit "a"; lit "x"; lit "# [marker]"; lit "b"])
                  (lit "x") (lit "# [marker]") false None)).
  reflexivity.
Defined.


(** The marker step tests [not before], the regex step [before]: with
    the flag set, which no call of [resource] does, the marker step puts
    the payload behind the anchor. *)
Example insert_once_marker_flag_set :
  let doc := join_lines [lit "a"; lit "# [marker]"; lit "b"] in
  insert_once literal_search doc (lit "x") (lit "# [marker]") true None
  = Returns (join_lines [lit "a"; lit "# [marker]"; lit "x"; lit "b"]).
Proof. reflexivity. Qed.

(** C4: the steps are tried in a fixed order and the first that applies
    decides.  (1) A text that holds the payload comes back as it is.
    (2) With the payload absent and the anchor present the result is the
    text of the marker step, [text.replace(anchor, ...)], whatever the
    regex library answers and whatever the fallback pattern is: neither
    the regex step nor the append step has a say.  (3) With both absent
    and a fallback pattern that matches, the payload goes in front of the
    start of the span [re.search] returns when [before] is set, and
    behind its end otherwise.  (4) With both absent and no match the
    append step decides.  (5) The result is fixed by the arguments and the
    one answer of [re.search]: the function asks for nothing else. *)
Theorem insert_once_priority (rs : searcher) (text needle anchor : str)
    (before : bool) (fb : option str) :
  (str_in needle text = true ->
   insert_once rs text needle anchor before fb = Returns text)
  /\ (str_in needle text = false -> str_in anchor text = true ->
      forall (rs' : searcher) (fb' : option str),
        insert_once rs' text needle anchor before fb'
        = Returns (replace text anchor
                     (if negb before then needle ++ nl :: anchor
                      else anchor ++ nl :: needle)))
  /\ (str_in needle text = false -> str_in anchor text = false ->
      forall (p : str) (start stop : nat),
        fb = Some p -> p <> [] -> rs p text true = Match start stop ->
        insert_once rs text needle anchor before fb
        = Returns (if before
                   then firstn start text ++ needle ++ nl :: skipn start text
                   else firstn stop text ++ nl :: needle ++ skipn stop text))
  /\ (str_in needle text = false -> str_in anchor text = false ->
      fb = None \/ fb = Some [] \/
        (exists p, fb = Some p /\ rs p text true = NoMatch) ->
      insert_once rs text needle anchor before fb
      = Returns (rstrip text ++ nl :: needle ++ [nl]))
  /\ (forall rs' : searcher,
        (forall p, rs p text true = rs' p text true) ->
        insert_once rs text needle anchor before fb
        = insert_once rs' text needle anchor before fb).
Proof.
  split; [apply insert_once_present|]. split; [|split; [|split]].
  - intros Hn Ha rs' fb'. unfold insert_once. now rewrite Hn, Ha.
  - intros Hn Ha p start stop -> Hp Hs. unfold insert_once.
    rewrite Hn, Ha. destruct p as [|p0 p]; [congruence|].
    rewrite Hs. now destruct before.
  - intros Hn Ha Hfb. unfold insert_once. rewrite Hn, Ha.
    destruct Hfb as [-> | [-> | [p [-> Hs]]]]; try reflexivity.
    destruct p as [|p0 p]; [reflexivity|]. now rewrite Hs.
  - intros rs' Hrs. unfold insert_once.
    destruct fb as [[|p0 p]|]; try reflexivity. now rewrite Hrs.
Qed.

Lemma insert_once_priority_witness :
  let marked := join_lines [lit "a"; lit "# [marker]"; lit "b"] in
  let doc := join_lines [lit "import os"; lit ""; lit "def f(): pass"] in
  insert_once literal_search (join_lines [lit "a"; lit "x"; lit "b"]) (lit "x")
    (lit "# [marker]") false (Some (lit "a"))
  = Returns (join_lines [lit "a"; lit "x"; lit "b"])
  /\ insert_once (fun _ _ _ => SearchError) marked (lit "x") (lit "# [marker]")
       false (Some (lit "a"))
     = Returns (replace marked (lit "# [marker]") (lit "x" ++ nl :: lit "# [marker]"))
  /\ insert_once literal_search doc (lit "import re") (lit "# [marker]") false
       (Some (lit "import os"))
     = Returns (join_lines [lit "import os"; lit "import re"; lit "";
                            lit "def f(): pass"])
  /\ insert_once literal_search doc (lit "import re") (lit "# [marker]") false
       (Some (lit "import sys"))
     = Returns (join_lines [lit "import os"; lit ""; lit "def f(): pass";
                            lit "import re"; lit ""])
  /\ insert_once literal_search doc (lit "import re") (lit "# [marker]") false
       (Some (lit "import os"))
     = insert_once (fun p t _ => literal_search p t false) doc (lit "import re")
         (lit "# [marker]") false (Some (lit "import os")).
Proof.
  cbv zeta. split; [|split; [|split; [|split]]].
  - apply (proj1 (insert_once_priority literal_search
                    (join_lines [lit "a"; lit "x"; lit "b"]) (lit "x")
                    (lit "# [marker]") false (Some (lit "a")))).
    reflexivity.
  - apply (proj1 (proj2 (insert_once_priority literal_search
                    (join_lines [lit "a"; lit "# [marker]"; lit "b"]) (lit "x")
                    (lit "# [marker]") false None))
             eq_refl eq_refl (fun _ _ _ => SearchError) (Some (lit "a"))).
  - apply (proj1 (proj2 (proj2 (insert_once_priority literal_search
                    (join_lines [lit "import os"; lit ""; lit "def f(): pass"])
                    (lit "import re") (lit "# [marker]") false
                    (Some (lit "import os")))))
             eq_refl eq_refl (lit "import os") 0 9 eq_refl);
      [discriminate | reflexivity].
  - apply (proj1 (proj2 (proj2 (proj2 (insert_once_priority literal_search
                    (join_lines [lit "import os"; lit ""; lit "def f(): pass"])
                    (lit "import re") (lit "# [marker]") false
                    (Some (lit "import sys"))))))
             eq_refl eq_refl).
    right. right. exists (lit "import sys"). split; reflexivity.
  - apply (proj2 (proj2 (proj2 (proj2 (insert_once_priority literal_search
                    (join_lines [lit "import os"; lit ""; lit "def f(): pass"])
                    (lit "import re") (lit "# [marker]") false
                    (Some (lit "import os"))))))).
    reflexivity.
Defined.

(** C5: with the payload and the anchor absent and no fallback match (no
    pattern, an empty one, or one that matches nowhere) [insert_once]
    raises nothing and returns the last-resort text: the document up to
    its trailing whitespace, a line break, the payload, a line break. *)
Theorem insert_once_last_resort (rs : searcher) (text needle anchor : str)
    (before : bool) (fb : option str) :
  str_in needle text = false -> str_in anchor text = false ->
  fb = None \/ fb = Some [] \/
    (exists p, fb = Some p /\ rs p text true = NoMatch) ->
  insert_once rs text needle anchor before fb
  = Returns (rstrip text ++ nl :: needle ++ [nl])
  /\ exists ws, text = rstrip text ++ ws /\ forallb is_space ws = true.
Proof.
  intros Hn Ha Hfb. split; [|apply rstrip_split].
  unfold insert_once. rewrite Hn, Ha.
  destruct Hfb as [-> | [-> | [p [-> Hs]]]]; try reflexivity.
  destruct p as [|p0 p]; [reflexivity|]. now rewrite Hs.
Qed.

Lemma insert_once_last_resort_witness :
  insert_once literal_search
    (join_lines [lit "def f():"; lit "    return 1"; lit ""]) (lit "import re")
    (lit "# [marker]") false (Some (lit "import "))
  = Returns (join_lines [lit "def f():"; lit "    return 1"; lit "import re";
                         lit ""])
  /\ exists ws,
       join_lines [lit "def f():"; lit "    return 1"; lit ""]
       = rstrip (join_lines [lit "def f():"; lit "    return 1"; lit ""]) ++ ws
       /\ forallb is_space ws = true.
Proof.
  apply (insert_once_last_resort literal_search
           (join_lines [lit "def f():"; lit "    return 1"; lit ""])
           (lit "import re") (lit "# [marker]") false (Some (lit "import "))).
  - reflexivity.
  - reflexivity.
  - right; right. exists (lit "import "). split; reflexivity.
Defined.

(** C6: on a document that holds the anchor on two lines the marker step
    inserts the payload in front of both, so the text after the first
    anchor does not come back as it was. *)
Theorem insert_once_rewrites_every_anchor :
  let pre := lit "" in
  let anchor := lit "# [marker]" in
  let post := nl :: join_lines [lit "a"; lit "# [marker]"; lit "b"] in
  str_in anchor (pre ++ anchor ++ post) = true
  /\ str_in (lit "x") (pre ++ anchor ++ post) = false
  /\ insert_once literal_search (pre ++ anchor ++ post) (lit "x") anchor false None
     = Returns (join_lines [lit "x"; lit "# [marker]"; lit "a"; lit "x";
                            lit "# [marker]"; lit "b"])
  /\ forall inserted : str,
       insert_once literal_search (pre ++ anchor ++ post) (lit "x") anchor false None
       <> Returns (pre ++ inserted ++ post).
Proof.
  intros pre anchor post. subst pre anchor post. repeat split.
  intros inserted H. injection H as H.
  change (lit "" ++ inserted ++ ?p) with (inserted ++ p) in H.
  assert (Hlen : length inserted = 14).
  { apply (f_equal (@length ascii)) in H.
    rewrite !length_app in H. simpl in H. lia. }
  apply (f_equal (skipn 14)) in H.
  rewrite skipn_app, Hlen, Nat.sub_diag in H.
  rewrite (@skipn_all2 _ 14 inserted) in H by lia.
  discriminate H.
Qed.

(** C9: the duplicate check is substring containment: a text that holds
    the payload anywhere is returned unchanged. *)
Theorem insert_once_duplicate_check_is_substring (rs : searcher)
    (text needle anchor : str) (before : bool) (fb : option str) :
  str_in needle text = true ->
  insert_once rs text needle anchor before fb = Returns text.
Proof. apply insert_once_present. Qed.

Lemma insert_once_duplicate_check_is_substring_witness :
  insert_once literal_search
    (join_lines [lit "# [marker]"; lit "api.register_blueprint(user_bp_v2)"])
    (lit "api.register_blueprint(user_bp") (lit "# [marker]") false None
  = Returns
      (join_lines [lit "# [marker]"; lit "api.register_blueprint(user_bp_v2)"]).
Proof.
  apply (insert_once_duplicate_check_is_substring literal_search
           (join_lines [lit "# [marker]"; lit "api.register_blueprint(user_bp_v2)"])
           (lit "api.register_blueprint(user_bp") (lit "# [marker]") false None).
  reflexivity.
Defined.

(** ** Properties of [insert_after_line] *)

(** C10: when the pattern matches nowhere and the payload is absent,
    [insert_after_line] returns the payload followed by the text; when the
    payload is present (and the pattern compiles) it returns the text. *)
Theorem insert_after_line_no_match_prepends (rs : searcher)
    (text after_pattern payload : str) :
  (rs after_pattern text false = NoMatch -> str_in payload text = false ->
   insert_after_line rs text after_pattern payload = Returns (payload ++ text))
  /\ (rs after_pattern text false <> SearchError ->
      str_in payload text = true ->
      insert_after_line rs text after_pattern payload = Returns text).
Proof.
  unfold insert_after_line. split.
  - intros -> ->. reflexivity.
  - intros Hs ->. destruct (rs after_pattern text false); congruence.
Qed.

Lemma insert_after_line_no_match_prepends_witness :
  insert_after_line literal_search (join_lines [lit "import os"; lit ""])
    (lit "import init_engine") (join_lines [lit "import re"; lit ""])
  = Returns (join_lines [lit "import re"; lit "import os"; lit ""])
  /\ insert_after_line literal_search (join_lines [lit "import os"; lit ""])
       (lit "import init_engine") (lit "import os")
     = Returns (join_lines [lit "import os"; lit ""]).
Proof.
  split.
  - apply (proj1 (insert_after_line_no_match_prepends literal_search
                    (join_lines [lit "import os"; lit ""])
                    (lit "import init_engine")
                    (join_lines [lit "import re"; lit ""])));
      reflexivity.
  - apply (proj2 (insert_after_line_no_match_prepends literal_search
                    (join_lines [lit "import os"; lit ""])
                    (lit "import init_engine") (lit "import os")));
      [discriminate | reflexivity].
Defined.

(** ** The version helpers *)

Module ReleaseFacts.

Import Release.

Lemma plain_char (c : ascii) :
  plain c = true ->
  is_space c = false /\ Ascii.eqb c "." = false /\ Ascii.eqb c "+" = false.
Proof.
  destruct c as [[] [] [] [] [] [] [] []]; intros H;
    solve [discriminate H | repeat split].
Qed.

Lemma digit_not_sign (c : ascii) :
  is_digit c = true -> Ascii.eqb c "+" = false /\ Ascii.eqb c "-" = false.
Proof.
  destruct c as [[] [] [] [] [] [] [] []]; intros H;
    solve [discriminate H | repeat split].
Qed.

Lemma digit_char_spec (d : N) :
  (d < 10)%N -> is_digit (digit_char d) = true /\ digit_val (digit_char d) = d.
Proof.
  intros H.
  assert (Hd : In d [0; 1; 2; 3; 4; 5; 6; 7; 8; 9]%N).
  { simpl. lia. }
  simpl in Hd.
  repeat (destruct Hd as [<- | Hd]; [split; reflexivity|]).
  contradiction.
Qed.

Lemma parse_digits_value (l : str) :
  forallb is_digit l = true ->
  forall (acc : N) (after_digit : bool),
    l <> [] \/ after_digit = true ->
    parse_digits acc after_digit l = Some (value acc l).
Proof.
  induction l as [|c l IH]; intros Hall acc b Hne.
  - destruct Hne as [Hne | ->]; [congruence | reflexivity].
  - simpl in Hall. apply andb_true_iff in Hall as [Hc Hl].
    simpl. rewrite Hc. apply IH; [exact Hl | now right].
Qed.

Lemma digits_of_spec (fuel : nat) :
  forall n : N,
    (n < 2 ^ N.of_nat fuel)%N ->
    forallb is_digit (digits_of fuel n) = true /\ value 0 (digits_of fuel n) = n.
Proof.
  induction fuel as [|f IH]; intros n Hn.
  - change (2 ^ N.of_nat 0)%N with 1%N in Hn.
    split; [reflexivity | unfold value; cbn [digits_of fold_left]; lia].
  - rewrite Nat2N.inj_succ, N.pow_succ_r' in Hn. cbn [digits_of].
    destruct (N.ltb_spec n 10) as [Hlt | Hge].
    + destruct (digit_char_spec _ Hlt) as [H1 H2].
      unfold value. cbn [forallb fold_left]. rewrite H1, H2.
      split; [reflexivity | lia].
    + assert (Hq : (n / 10 < 2 ^ N.of_nat f)%N).
      { apply N.Div0.div_lt_upper_bound; lia. }
      destruct (IH _ Hq) as [H1 H2].
      assert (Hr : (n mod 10 < 10)%N) by (apply N.mod_lt; lia).
      destruct (digit_char_spec _ Hr) as [H3 H4].
      split.
      * rewrite forallb_app, H1. cbn [forallb]. now rewrite H3.
      * unfold value in *. rewrite fold_left_app, H2. cbn [fold_left].
        rewrite H4. symmetry. apply N.div_mod. lia.
Qed.

Lemma str_of_N_spec (n : N) :
  forallb is_digit (str_of_N n) = true
  /\ str_of_N n <> []
  /\ parse_digits 0 false (str_of_N n) = Some n.
Proof.
  assert (Hfuel : (n < 2 ^ N.of_nat (S (N.to_nat (N.log2 n))))%N).
  { rewrite Nat2N.inj_succ, N2Nat.id. destruct n as [|p]; [reflexivity|].
    apply N.log2_spec. reflexivity. }
  destruct (digits_of_spec _ _ Hfuel) as [H1 H2].
  assert (Hne : str_of_N n <> []).
  { unfold str_of_N. cbn [digits_of]. destruct (n <? 10)%N; [discriminate|].
    intros H. apply app_eq_nil in H as [_ H]. discriminate H. }
  repeat split; [exact H1 | exact Hne |].
  rewrite parse_digits_value; [| exact H1 | now left].
  f_equal. exact H2.
Qed.

Lemma str_of_Z_plain (z : Z) : forallb plain (str_of_Z z) = true.
Proof.
  assert (H : forall n, forallb plain (str_of_N n) = true).
  { intros n. destruct (str_of_N_spec n) as [H _].
    rewrite forallb_forall in *. intros c Hc. unfold plain.
    now rewrite (H c Hc). }
  destruct z as [|p|p]; cbn [str_of_Z forallb]; [apply H | apply H |].
  rewrite H. reflexivity.
Qed.

Lemma plain_not_int_space (c : ascii) : plain c = true -> int_space c = false.
Proof.
  destruct c as [[] [] [] [] [] [] [] []]; intros H;
    solve [discriminate H | reflexivity].
Qed.

Lemma int_lstrip_plain (t : str) : forallb plain t = true -> int_lstrip t = t.
Proof.
  destruct t as [|c t]; [reflexivity|]. cbn [forallb int_lstrip]. intros H.
  apply andb_true_iff in H as [H _].
  now rewrite (plain_not_int_space _ H).
Qed.

Lemma int_strip_plain (t : str) : forallb plain t = true -> int_strip t = t.
Proof.
  intros H. unfold int_strip. rewrite (int_lstrip_plain _ H).
  rewrite int_lstrip_plain; [apply rev_involutive|].
  rewrite forallb_forall in *. intros c Hc. apply H. now apply in_rev.
Qed.

(** [int(str(z)) == z] *)
Lemma py_int_str_of_Z (z : Z) : py_int (str_of_Z z) = Some z.
Proof.
  unfold py_int. rewrite (int_strip_plain _ (str_of_Z_plain z)).
  destruct z as [|p|p].
  - reflexivity.
  - destruct (str_of_N_spec (Npos p)) as [Hd [Hne Hp]]. cbn [str_of_Z].
    destruct (str_of_N (Npos p)) as [|c r]; [congruence|].
    cbn [forallb] in Hd. apply andb_true_iff in Hd as [Hc _].
    destruct (digit_not_sign _ Hc) as [-> ->]. now rewrite Hp.
  - destruct (str_of_N_spec (Npos p)) as [_ [_ Hp]].
    change (str_of_Z (Zneg p)) with ("-"%char :: str_of_N (Npos p)).
    change (Ascii.eqb "-" "+") with false. change (Ascii.eqb "-" "-") with true.
    cbv iota. now rewrite Hp.
Qed.

Lemma split_single (sep : ascii) (a : str) :
  forallb (fun c => negb (Ascii.eqb c sep)) a = true -> split sep a = [a].
Proof.
  induction a as [|c a IH]; [reflexivity|]. simpl. intros H.
  apply andb_true_iff in H as [Hc Ha]. apply negb_true_iff in Hc.
  now rewrite Hc, (IH Ha).
Qed.

Lemma split_app (sep : ascii) (a r : str) :
  forallb (fun c => negb (Ascii.eqb c sep)) a = true ->
  split sep (a ++ sep :: r) = a :: split sep r.
Proof.
  induction a as [|c a IH]; simpl; intros H.
  - now rewrite Ascii.eqb_refl.
  - apply andb_true_iff in H as [Hc Ha]. apply negb_true_iff in Hc.
    now rewrite Hc, (IH Ha).
Qed.

Lemma str_of_Z_no_dot (z : Z) :
  forallb (fun c => negb (Ascii.eqb c ".")) (str_of_Z z) = true.
Proof.
  pose proof (str_of_Z_plain z) as H. rewrite forallb_forall in *.
  intros c Hc. apply H in Hc. apply plain_char in Hc as [_ [-> _]]. reflexivity.
Qed.

(** Line 94 on a printed triple gives the triple back. *)
Lemma version_string_parts (major minor patch : Z) :
  map py_int (split "." (version_string major minor patch))
  = [Some major; Some minor; Some patch].
Proof.
  unfold version_string.
  rewrite (split_app _ _ _ (str_of_Z_no_dot major)).
  rewrite (split_app _ _ _ (str_of_Z_no_dot minor)).
  rewrite (split_single _ _ (str_of_Z_no_dot patch)).
  cbn [map]. now rewrite !py_int_str_of_Z.
Qed.

Lemma str_eqb_eq (a b : str) : str_eqb a b = true <-> a = b.
Proof.
  revert b; induction a as [|x a IH]; intros [|y b]; simpl;
    try (split; [discriminate | congruence]); try tauto.
  rewrite andb_true_iff, Ascii.eqb_eq, IH. split.
  - now intros [-> ->].
  - intros [= -> ->]. now split.
Qed.

End ReleaseFacts.

Import Release ReleaseFacts.

(** C7: on the printed triple (major, minor, patch), [bump_version]
    returns the printed triple (major, minor, patch+1) for [patch],
    (major, minor+1, 0) for [minor] and (major+1, 0, 0) for [major];
    1.2.3 bumped [major] is 2.0.0. *)
Theorem bump_version_semver (major minor patch : Z) :
  bump_version (version_string major minor patch) (lit "patch")
  = Returns (version_string major minor (patch + 1))
  /\ bump_version (version_string major minor patch) (lit "minor")
     = Returns (version_string major (minor + 1) 0)
  /\ bump_version (version_string major minor patch) (lit "major")
     = Returns (version_string (major + 1) 0 0)
  /\ version_string 1 2 3 = lit "1.2.3"
  /\ bump_version (lit "1.2.3") (lit "major") = Returns (lit "2.0.0").
Proof.
  unfold bump_version. rewrite version_string_parts.
  repeat split; reflexivity.
Qed.

(** C8, as stated, fails: with 0.3.1 in pyproject.toml and 0.3.2 in
    __init__.py the check script exits with status 2, not 1. *)
Lemma check_version_sync_mismatch_exits_2 :
  let pyproj := join_lines [lit "[project]"; lit "name = " ++ quoted (lit "forge");
                            lit "version = " ++ quoted (lit "0.3.1"); lit ""] in
  let pkg := join_lines [lit "__version__ = " ++ quoted (lit "0.3.2"); lit ""] in
  search_assignment pyproject_name pyproj = Some (lit "0.3.1")
  /\ search_assignment init_name pkg = Some (lit "0.3.2")
  /\ exit_code (check_version_sync pyproj pkg) = 2%Z
  /\ exit_code (check_version_sync pyproj pkg) <> 1%Z.
Proof. repeat split. discriminate. Qed.

(** C8, amended: when the two files hold different version strings, both
    checks fail with a message and a non-zero status.  The check script
    prints the mismatch and exits with 2 (1 is its status for a version
    it cannot find); [get_current_version] raises [ForgeReleaseError] with
    the mismatch message, and a command of [main] that reaches it exits
    with 1. *)
Theorem version_mismatch_fails (pyproj pkg v1 v2 : str) :
  search_assignment pyproject_name pyproj = Some v1 ->
  search_assignment init_name pkg = Some v2 ->
  v1 <> v2 ->
  check_version_sync pyproj pkg
  = {| printed := [lit "Version mismatch: pyproject.toml=" ++ v1
                   ++ lit " vs __init__=" ++ v2];
       exit_code := 2 |}
  /\ get_current_version pyproj pkg
     = Raises (ForgeReleaseError
                 (lit "Version mismatch: pyproject.toml=" ++ v1
                  ++ lit " vs __init__.py=" ++ v2))
  /\ forall (A B : Type) (before_it : outcome A) (rest : str * str -> outcome B),
       main_exit_code (_ <- before_it ;;
                       v <- get_current_version pyproj pkg ;; rest v) = 1%Z.
Proof.
  intros H1 H2 Hne.
  assert (Hneq : str_eqb v1 v2 = false).
  { destruct (str_eqb v1 v2) eqn:E; [|reflexivity].
    apply str_eqb_eq in E. contradiction. }
  assert (Hg : get_current_version pyproj pkg
               = Raises (ForgeReleaseError
                           (lit "Version mismatch: pyproject.toml=" ++ v1
                            ++ lit " vs __init__.py=" ++ v2))).
  { unfold get_current_version. now rewrite H1, H2, Hneq. }
  repeat split.
  - unfold check_version_sync. now rewrite H1, H2, Hneq.
  - exact Hg.
  - intros A B before_it rest. rewrite Hg.
    destruct before_it as [a|[]]; reflexivity.
Qed.

Lemma version_mismatch_fails_witness :
  let pyproj := join_lines [lit "[project]"; lit "name = " ++ quoted (lit "forge");
                            lit "version = " ++ quoted (lit "0.3.1"); lit ""] in
  let pkg := join_lines [lit "__version__ = " ++ quoted (lit "0.3.2"); lit ""] in
  exit_code (check_version_sync pyproj pkg) = 2%Z
  /\ main_exit_code (v <- get_current_version pyproj pkg ;;
                     bump_version (fst v) (lit "patch")) = 1%Z.
Proof.
  intros pyproj pkg.
  assert (H1 : search_assignment pyproject_name pyproj = Some (lit "0.3.1"))
    by reflexivity.
  assert (H2 : search_assignment init_name pkg = Some (lit "0.3.2"))
    by reflexivity.
  assert (Hne : lit "0.3.1" <> lit "0.3.2") by discriminate.
  destruct (version_mismatch_fails pyproj pkg _ _ H1 H2 Hne) as [Hc [_ Hm]].
  split.
  - now rewrite Hc.
  - exact (Hm unit str (Returns tt) (fun v => bump_version (fst v) (lit "patch"))).
Defined.

(** ** Lines of a text *)

Section LinesFacts.

Lemma split_not_nil (sep : ascii) (t : str) : split sep t <> [].
Proof.
  destruct t as [|c r]; simpl; [discriminate|].
  destruct (Ascii.eqb c sep); [discriminate|].
  destruct (split sep r); discriminate.
Qed.

(** ["\n".join(t.split("\n")) == t] *)
Lemma join_lines_split (t : str) : join_lines (split nl t) = t.
Proof.
  induction t as [|c r IH]; [reflexivity|].
  simpl. destruct (Ascii.eqb_spec c nl) as [-> | Hc].
  - pose proof (split_not_nil nl r) as Hne.
    destruct (split nl r) as [|h tl]; [congruence|].
    change (join_lines ([] :: h :: tl)) with (nl :: join_lines (h :: tl)).
    now rewrite IH.
  - pose proof (split_not_nil nl r) as Hne.
    destruct (split nl r) as [|h tl]; [congruence|].
    destruct tl as [|h' tl]; simpl in *; now rewrite <- IH.
Qed.

(** The text of the lines [l :: rest]: [l], then each further line behind
    a line break. *)
Lemma join_lines_cons (l : str) (rest : list str) :
  join_lines (l :: rest) = l ++ concat (map (cons nl) rest).
Proof.
  revert l; induction rest as [|l' rest IH]; intros l.
  - simpl. now rewrite app_nil_r.
  - change (join_lines (l :: l' :: rest)) with (l ++ nl :: join_lines (l' :: rest)).
    rewrite IH. reflexivity.
Qed.

Lemma join_lines_app (pre : list str) (l : str) (rest : list str) :
  join_lines (pre ++ l :: rest)
  = concat (map (fun x => x ++ [nl]) pre) ++ join_lines (l :: rest).
Proof.
  induction pre as [|x pre IH]; [reflexivity|].
  cbn [map concat]. rewrite <- !app_assoc, <- IH.
  destruct pre as [|y pre]; reflexivity.
Qed.

(** A line of a list is a piece of the joined text. *)
Lemma in_join_piece (ls : list str) (l : str) :
  In l ls -> exists a b, join_lines ls = a ++ l ++ b.
Proof.
  intros H. apply in_split in H as [pre [rest ->]].
  rewrite join_lines_app, join_lines_cons. eauto.
Qed.

Lemma in_lines_piece (t l : str) :
  In l (split nl t) -> exists a b, t = a ++ l ++ b.
Proof.
  intros H. destruct (in_join_piece _ _ H) as [a [b Hab]].
  rewrite join_lines_split in Hab. eauto.
Qed.

(** What holds [x] in one of its lines holds [x]. *)
Lemma str_in_line (x t : str) :
  existsb (str_in x) (split nl t) = true -> str_in x t = true.
Proof.
  intros H. apply existsb_exists in H as [l [Hl Hx]].
  apply in_lines_piece in Hl as [a [b ->]]. now apply str_in_app.
Qed.

Lemma str_in_join (x : str) (ls : list str) :
  existsb (str_in x) ls = true -> str_in x (join_lines ls) = true.
Proof.
  intros H. apply existsb_exists in H as [l [Hl Hx]].
  apply in_join_piece in Hl as [a [b ->]]. now apply str_in_app.
Qed.

(** Splitting behind a piece without the separator. *)
Lemma split_prefix (sep : ascii) (a r : str) :
  forallb (fun c => negb (Ascii.eqb c sep)) a = true ->
  split sep (a ++ r)
  = match split sep r with
    | h :: tl => (a ++ h) :: tl
    | [] => [a]
    end.
Proof.
  induction a as [|c a IH]; simpl; intros H.
  - pose proof (split_not_nil sep r). now destruct (split sep r).
  - apply andb_true_iff in H as [Hc Ha]. apply negb_true_iff in Hc.
    rewrite Hc, (IH Ha). now destruct (split sep r).
Qed.

Lemma str_in_refl (x : str) : str_in x x = true.
Proof. apply str_in_iff. exists [], []. now rewrite app_nil_r. Qed.

(** A piece without line break lies within one line. *)
Lemma str_in_some_line (x t : str) :
  forallb (fun c => negb (Ascii.eqb c nl)) x = true ->
  str_in x t = true -> existsb (str_in x) (split nl t) = true.
Proof.
  intros Hx. induction t as [|c r IH].
  - simpl. now rewrite !orb_false_r.
  - change (str_in x (c :: r)) with (starts_with x (c :: r) || str_in x r).
    intros H. apply orb_true_iff in H as [H | H].
    + apply starts_with_iff in H as [b ->].
      rewrite (split_prefix _ _ _ Hx).
      destruct (split nl b) as [|h tl]; cbn [existsb].
      * now rewrite str_in_refl.
      * now rewrite (str_in_app_l x x h (str_in_refl x)).
    + specialize (IH H). simpl. pose proof (split_not_nil nl r) as Hne.
      destruct (Ascii.eqb c nl); [cbn [existsb]; rewrite IH; apply orb_true_r|].
      destruct (split nl r) as [|h tl]; [congruence|].
      cbn [existsb] in *. apply orb_true_iff in IH as [IH | IH].
      * now rewrite (str_in_cons _ _ c IH).
      * rewrite IH. apply orb_true_r.
Qed.

(** Lines of a split hold no line break, so joining and splitting again
    gives them back. *)
Lemma split_lines_plain (sep : ascii) (t : str) :
  forallb (forallb (fun c => negb (Ascii.eqb c sep))) (split sep t) = true.
Proof.
  induction t as [|c r IH]; [reflexivity|]. simpl.
  destruct (Ascii.eqb c sep) eqn:E; [exact IH|].
  destruct (split sep r) as [|h tl]; cbn [forallb] in *; now rewrite E.
Qed.

Lemma split_join_lines (l : str) (rest : list str) :
  forallb (forallb (fun c => negb (Ascii.eqb c nl))) (l :: rest) = true ->
  split nl (join_lines (l :: rest)) = l :: rest.
Proof.
  revert l; induction rest as [|l' rest IH]; intros l H;
    cbn [forallb] in H; apply andb_true_iff in H as [Hl Hrest].
  - change (join_lines [l]) with l. rewrite <- (app_nil_r l) at 1.
    rewrite (split_prefix _ _ _ Hl). simpl. now rewrite app_nil_r.
  - change (join_lines (l :: l' :: rest)) with (l ++ nl :: join_lines (l' :: rest)).
    rewrite (split_prefix _ _ _ Hl).
    change (split nl (nl :: join_lines (l' :: rest)))
      with ([] :: split nl (join_lines (l' :: rest))).
    rewrite (IH _ Hrest). now rewrite app_nil_r.
Qed.

End LinesFacts.

(** ** The OpenAPI plugin's edits *)

Module PluginFacts.

Import Plugin.

Lemma last_import_idx_spec (lines : list str) :
  forall (i : nat) (last : option nat),
    match last_import_idx i lines last with
    | Some k =>
        (last = Some k /\ forallb not_import lines = true)
        \/ (exists pre l post,
               lines = pre ++ l :: post /\ k = i + length pre
               /\ is_import_line l = true /\ forallb not_import post = true)
    | None => last = None /\ forallb not_import lines = true
    end.
Proof.
  induction lines as [|line rest IH]; intros i last.
  - simpl. destruct last; auto.
  - cbn [last_import_idx].
    specialize (IH (S i) (if is_import_line line then Some i else last)).
    destruct (last_import_idx (S i) rest
                (if is_import_line line then Some i else last)) as [k|].
    + destruct IH as [[Hl Hrest] | [pre [l [post [-> [-> [Hl Hpost]]]]]]].
      * destruct (is_import_line line) eqn:E.
        -- right. exists [], line, rest. injection Hl as <-.
           split; [reflexivity|]. split; [simpl; lia|]. now split.
        -- left. split; [exact Hl|]. cbn [forallb]. unfold not_import at 1.
           now rewrite E.
      * right. exists (line :: pre), l, post.
        split; [reflexivity|]. split; [simpl; lia|]. now split.
    + destruct IH as [Hl Hrest]. destruct (is_import_line line) eqn:E;
        [discriminate Hl|].
      split; [exact Hl|]. cbn [forallb]. unfold not_import at 1. now rewrite E.
Qed.

Lemma first_code_idx_spec (lines : list str) :
  forall i : nat,
    match first_code_idx i lines with
    | Some k =>
        exists pre l post,
          lines = pre ++ l :: post /\ k = i + length pre
          /\ forallb (fun x => negb (is_code_line x)) pre = true
          /\ is_code_line l = true
    | None => forallb (fun x => negb (is_code_line x)) lines = true
    end.
Proof.
  induction lines as [|line rest IH]; intros i; [reflexivity|].
  cbn [first_code_idx].
  destruct (is_code_line line) eqn:E.
  - exists [], line, rest.
    split; [reflexivity|]. split; [simpl; lia|]. now split.
  - specialize (IH (S i)). destruct (first_code_idx (S i) rest) as [k|].
    + destruct IH as [pre [l [post [-> [-> [Hpre Hl]]]]]].
      exists (line :: pre), l, post.
      split; [reflexivity|]. split; [simpl; lia|].
      split; [cbn [forallb]; now rewrite E | exact Hl].
    + cbn [forallb]. now rewrite E.
Qed.

Lemma forallb_skipn {A : Type} (f : A -> bool) (n : nat) (l : list A) :
  forallb f l = true -> forallb f (skipn n l) = true.
Proof.
  revert l; induction n as [|n IH]; intros [|x l]; simpl; auto.
  intros H. apply andb_true_iff in H as [_ H]. now apply IH.
Qed.

Lemma skipn_length_app {A : Type} (pre post : list A) (n : nat) :
  n = length pre -> skipn n (pre ++ post) = post.
Proof. intros ->. rewrite skipn_app, skipn_all, Nat.sub_diag. reflexivity. Qed.

Lemma firstn_length_app {A : Type} (pre post : list A) (n : nat) :
  n = length pre -> firstn n (pre ++ post) = pre.
Proof.
  intros ->. rewrite firstn_app, firstn_all, Nat.sub_diag. simpl.
  apply app_nil_r.
Qed.

End PluginFacts.

Import Plugin PluginFacts.

(** X1: the index [_find_import_insertion_point] returns lies within the
    list, no import line stands at or behind it, and when the list has an
    import line, the line just in front of it is one. *)
Theorem find_import_insertion_point_behind_imports (lines : list str) :
  let k := _find_import_insertion_point lines in
  k <= length lines
  /\ forallb (fun l => negb (is_import_line l)) (skipn k lines) = true
  /\ (existsb is_import_line lines = true ->
      exists l, nth_error lines (k - 1) = Some l /\ 0 < k
                /\ is_import_line l = true).
Proof.
  unfold _find_import_insertion_point.
  pose proof (last_import_idx_spec lines 0 None) as H.
  destruct (last_import_idx 0 lines None) as [k|].
  - destruct H as [[H _] | [pre [l [post [-> [-> [Hl Hpost]]]]]]];
      [discriminate H|].
    cbn zeta. simpl Nat.add. split; [|split].
    + rewrite length_app. simpl. lia.
    + replace (pre ++ l :: post) with ((pre ++ [l]) ++ post)
        by now rewrite <- app_assoc.
      rewrite skipn_length_app by (rewrite length_app; simpl; lia).
      exact Hpost.
    + intros _. exists l.
      replace (length pre + 1 - 1) with (length pre) by lia.
      rewrite nth_error_app2, Nat.sub_diag by lia.
      split; [reflexivity|]. split; [lia | exact Hl].
  - destruct H as [_ H]. cbn zeta. split; [|split].
    + pose proof (first_code_idx_spec lines 0) as Hc.
      destruct (first_code_idx 0 lines) as [k|]; [|lia].
      destruct Hc as [pre [l [post [-> [-> _]]]]]. rewrite length_app. simpl. lia.
    + now apply forallb_skipn.
    + intros Hex. exfalso. apply existsb_exists in Hex as [l [Hin Hl]].
      rewrite forallb_forall in H. specialize (H l Hin).
      unfold not_import in H. now rewrite Hl in H.
Qed.

Lemma find_import_insertion_point_behind_imports_witness :
  exists l,
    nth_error [lit "# api"; lit "import os"; lit ""; lit "x = 1"]
      (_find_import_insertion_point
         [lit "# api"; lit "import os"; lit ""; lit "x = 1"] - 1) = Some l
    /\ 0 < _find_import_insertion_point
             [lit "# api"; lit "import os"; lit ""; lit "x = 1"]
    /\ is_import_line l = true.
Proof.
  apply (proj2 (proj2 (find_import_insertion_point_behind_imports
                         [lit "# api"; lit "import os"; lit ""; lit "x = 1"]))).
  reflexivity.
Defined.

(** X2: when no line is an import line, [_find_import_insertion_point]
    returns the index of the first line that is neither blank nor a
    comment, and 0 when there is no such line (so in a file of comments
    only the import goes in front of them). *)
Theorem find_import_insertion_point_without_imports (lines : list str) :
  existsb is_import_line lines = false ->
  let k := _find_import_insertion_point lines in
  forallb (fun l => negb (is_code_line l)) (firstn k lines) = true
  /\ ((exists l, nth_error lines k = Some l /\ is_code_line l = true)
      \/ (k = 0 /\ forallb (fun l => negb (is_code_line l)) lines = true)).
Proof.
  intros Hno. unfold _find_import_insertion_point.
  pose proof (last_import_idx_spec lines 0 None) as H.
  destruct (last_import_idx 0 lines None) as [k|].
  - exfalso. destruct H as [[H _] | [pre [l [post [-> [_ [Hl _]]]]]]];
      [discriminate H|].
    rewrite existsb_app in Hno. cbn [existsb] in Hno. rewrite Hl in Hno.
    rewrite orb_true_r in Hno. discriminate Hno.
  - pose proof (first_code_idx_spec lines 0) as Hc.
    destruct (first_code_idx 0 lines) as [k|]; cbn zeta.
    + destruct Hc as [pre [l [post [-> [-> [Hpre Hl]]]]]]. simpl Nat.add. split.
      * now rewrite firstn_length_app.
      * left. exists l. split; [|exact Hl].
        rewrite nth_error_app2, Nat.sub_diag by lia. reflexivity.
    + split; [reflexivity | right; now split].
Qed.

Lemma find_import_insertion_point_without_imports_witness :
  forallb (fun l => negb (is_code_line l))
    (firstn (_find_import_insertion_point [lit "# only"; lit ""; lit "# comments"])
       [lit "# only"; lit ""; lit "# comments"]) = true
  /\ ((exists l,
          nth_error [lit "# only"; lit ""; lit "# comments"]
            (_find_import_insertion_point [lit "# only"; lit ""; lit "# comments"])
          = Some l /\ is_code_line l = true)
      \/ (_find_import_insertion_point [lit "# only"; lit ""; lit "# comments"] = 0
          /\ forallb (fun l => negb (is_code_line l))
               [lit "# only"; lit ""; lit "# comments"] = true)).
Proof.
  apply (find_import_insertion_point_without_imports
           [lit "# only"; lit ""; lit "# comments"]).
  reflexivity.
Defined.

Module PluginEdits.

Lemma replace_marker_line_spec (lines : list str) :
  match replace_marker_line lines with
  | Some lines' =>
      exists pre line post,
        lines = pre ++ line :: post
        /\ lines' = pre ++ import_and_marker :: post
        /\ str_in FORGE_AUTO_IMPORTS line = true
        /\ existsb (str_in FORGE_AUTO_IMPORTS) pre = false
  | None => existsb (str_in FORGE_AUTO_IMPORTS) lines = false
  end.
Proof.
  induction lines as [|line rest IH]; [reflexivity|].
  cbn [replace_marker_line].
  destruct (str_in FORGE_AUTO_IMPORTS line) eqn:E.
  - exists [], line, rest. now repeat split.
  - destruct (replace_marker_line rest) as [rest'|]; cbn [option_map].
    + destruct IH as [pre [l [post [-> [-> [Hl Hpre]]]]]].
      exists (line :: pre), l, post.
      split; [reflexivity|]. split; [reflexivity|]. split; [exact Hl|].
      cbn [existsb]. now rewrite E.
    + cbn [existsb]. now rewrite E.
Qed.

Lemma insert_init_call_spec (body : list str) :
  match insert_init_call body with
  | Some body' =>
      exists pre post,
        body = pre ++ post /\ body' = pre ++ call_line :: post
        /\ existsb stops_init_scan body = true
  | None => existsb stops_init_scan body = false
  end.
Proof.
  induction body as [|line rest IH]; [reflexivity|].
  cbn [insert_init_call existsb]. unfold stops_init_scan at 1 3.
  destruct (str_in FORGE_AUTO_INIT line) eqn:E1.
  - exists [line], rest. now repeat split.
  - destruct (nonblank line && negb (starts_with (lit "    #") line)) eqn:E2.
    + exists [], (line :: rest). now repeat split.
    + destruct (insert_init_call rest) as [rest'|]; cbn [option_map orb].
      * destruct IH as [pre [post [-> [-> H]]]].
        exists (line :: pre), post. now repeat split.
      * exact IH.
Qed.

Lemma at_register_http_spec (lines : list str) :
  match at_register_http lines with
  | Some lines' =>
      exists pre post,
        lines = pre ++ post /\ lines' = pre ++ call_line :: post
        /\ existsb is_register_http pre = true
  | None => True
  end.
Proof.
  induction lines as [|line rest IH]; [exact I|].
  cbn [at_register_http]. fold (is_register_http line).
  destruct (is_register_http line) eqn:E.
  - pose proof (insert_init_call_spec rest) as H.
    destruct (insert_init_call rest) as [rest'|]; cbn [option_map]; [|exact I].
    destruct H as [pre [post [-> [-> _]]]].
    exists (line :: pre), post. split; [reflexivity|]. split; [reflexivity|].
    cbn [existsb]. now rewrite E.
  - destruct (at_register_http rest) as [rest'|]; cbn [option_map]; [|exact I].
    destruct IH as [pre [post [-> [-> H]]]].
    exists (line :: pre), post. split; [reflexivity|]. split; [reflexivity|].
    cbn [existsb]. now rewrite H, orb_true_r.
Qed.

Lemma at_register_http_none (lines : list str) :
  existsb is_register_http lines = false -> at_register_http lines = None.
Proof.
  induction lines as [|line rest IH]; [reflexivity|].
  cbn [existsb at_register_http]. fold (is_register_http line).
  intros H. apply orb_false_iff in H as [-> H]. now rewrite (IH H).
Qed.

Lemma add_api_init_call_shape (lines : list str) :
  let (modified, lines') := _add_api_init_call lines in
  if modified
  then exists pre post,
         lines = pre ++ post /\ lines' = pre ++ call_line :: post
         /\ existsb is_register_http pre = true
  else lines' = lines.
Proof.
  unfold _add_api_init_call.
  destruct (existsb (str_in API_INIT_CALL) lines); [reflexivity|].
  pose proof (at_register_http_spec lines) as H.
  now destruct (at_register_http lines).
Qed.

End PluginEdits.

Import PluginEdits.

(** X3: after [_add_openapi_import] some line holds the import, whatever
    the lines were; the flag is False exactly when a line held it before;
    a second call changes nothing and returns False. *)
Theorem add_openapi_import_idempotent (lines : list str) :
  existsb (str_in OPENAPI_IMPORT) (snd (_add_openapi_import lines)) = true
  /\ fst (_add_openapi_import lines)
     = negb (existsb (str_in OPENAPI_IMPORT) lines)
  /\ _add_openapi_import (snd (_add_openapi_import lines))
     = (false, snd (_add_openapi_import lines)).
Proof.
  assert (H : existsb (str_in OPENAPI_IMPORT) (snd (_add_openapi_import lines))
              = true).
  { unfold _add_openapi_import.
    destruct (existsb (str_in OPENAPI_IMPORT) lines) eqn:E; [exact E|].
    pose proof (replace_marker_line_spec lines) as Hm.
    destruct (replace_marker_line lines) as [lines'|]; cbn [snd].
    - destruct Hm as [pre [line [post [_ [-> _]]]]].
      rewrite existsb_app. cbn [existsb].
      replace (str_in OPENAPI_IMPORT import_and_marker) with true by reflexivity.
      now rewrite orb_true_r.
    - unfold list_insert. rewrite existsb_app. cbn [existsb].
      rewrite (str_in_refl OPENAPI_IMPORT). now rewrite orb_true_r. }
  split; [exact H|]. split.
  - unfold _add_openapi_import.
    destruct (existsb (str_in OPENAPI_IMPORT) lines); [reflexivity|].
    now destruct (replace_marker_line lines).
  - unfold _add_openapi_import at 1. now rewrite H.
Qed.

(** X4: [_add_api_init_call] either returns False and leaves the lines as
    they are, or returns True and has put the one line
    [    configure_openapi(app)] somewhere behind a line that holds
    [def register_http(app], every other line staying in place.  Without
    such a [def] line it returns False. *)
Theorem add_api_init_call_inserts_one_line (lines : list str) :
  (let (modified, lines') := _add_api_init_call lines in
   if modified
   then exists pre post,
          lines = pre ++ post /\ lines' = pre ++ call_line :: post
          /\ existsb is_register_http pre = true
   else lines' = lines)
  /\ (existsb is_register_http lines = false ->
      _add_api_init_call lines = (false, lines)).
Proof.
  split; [apply add_api_init_call_shape|].
  unfold _add_api_init_call.
  - intros H. rewrite (at_register_http_none _ H).
    now destruct (existsb (str_in API_INIT_CALL) lines).
Qed.

Lemma add_api_init_call_inserts_one_line_witness :
  _add_api_init_call [lit "import os"; lit "x = 1"]
  = (false, [lit "import os"; lit "x = 1"]).
Proof.
  apply (proj2 (add_api_init_call_inserts_one_line [lit "import os"; lit "x = 1"])).
  reflexivity.
Defined.

(** X5: a second [_add_api_init_call] changes nothing and returns False. *)
Theorem add_api_init_call_idempotent (lines : list str) :
  _add_api_init_call (snd (_add_api_init_call lines))
  = (false, snd (_add_api_init_call lines)).
Proof.
  pose proof (add_api_init_call_shape lines) as H.
  destruct (_add_api_init_call lines) as [[|] lines'] eqn:E; cbn [snd].
  - destruct H as [pre [post [_ [-> _]]]]. unfold _add_api_init_call.
    rewrite existsb_app. cbn [existsb].
    replace (str_in API_INIT_CALL call_line) with true by reflexivity.
    now rewrite orb_true_r.
  - subst lines'. exact E.
Qed.

Section MoreLinesFacts.

Lemma split_at_sep (sep : ascii) (a b : str) :
  split sep (a ++ sep :: b) = split sep a ++ split sep b.
Proof.
  induction a as [|c a IH]; simpl.
  - now rewrite Ascii.eqb_refl.
  - rewrite IH. destruct (Ascii.eqb c sep); [reflexivity|].
    pose proof (split_not_nil sep a). now destruct (split sep a).
Qed.

(** Splitting a joined text splits every line. *)
Lemma split_join_flat (l : str) (rest : list str) :
  split nl (join_lines (l :: rest)) = flat_map (split nl) (l :: rest).
Proof.
  revert l; induction rest as [|l' rest IH]; intros l.
  - simpl. now rewrite app_nil_r.
  - change (join_lines (l :: l' :: rest)) with (l ++ nl :: join_lines (l' :: rest)).
    rewrite split_at_sep, IH. reflexivity.
Qed.

Lemma flat_map_split_plain (ls : list str) :
  forallb plain_line ls = true -> flat_map (split nl) ls = ls.
Proof.
  induction ls as [|l ls IH]; [reflexivity|]. cbn [forallb flat_map].
  intros H. apply andb_true_iff in H as [Hl Hls].
  rewrite (ReleaseFacts.split_single _ _ Hl), (IH Hls). reflexivity.
Qed.

(** A piece without line break that the joined text holds lies in one of
    the lines. *)
Lemma str_in_join_inv (x l : str) (rest : list str) :
  plain_line x = true ->
  str_in x (join_lines (l :: rest)) = true ->
  existsb (str_in x) (l :: rest) = true.
Proof.
  intros Hx H. apply (str_in_some_line _ _ Hx) in H.
  rewrite split_join_flat in H.
  apply existsb_exists in H as [piece [Hin Hpiece]].
  apply in_flat_map in Hin as [line [Hline Hin]].
  apply existsb_exists. exists line. split; [exact Hline|].
  apply in_lines_piece in Hin as [a [b ->]]. now apply str_in_app.
Qed.

Lemma str_in_lines_iff (x t : str) :
  plain_line x = true ->
  existsb (str_in x) (split nl t) = str_in x t.
Proof.
  intros Hx. destruct (str_in x t) eqn:E.
  - now apply str_in_some_line.
  - destruct (existsb (str_in x) (split nl t)) eqn:E'; [|reflexivity].
    apply str_in_line in E'. congruence.
Qed.

End MoreLinesFacts.

Module ApiFileFacts.

Lemma at_register_http_app_nodef (pre rest : list str) :
  existsb is_register_http pre = false ->
  at_register_http (pre ++ rest) = option_map (app pre) (at_register_http rest).
Proof.
  induction pre as [|line pre IH]; intros H.
  - simpl. now destruct (at_register_http rest).
  - cbn [existsb] in H. apply orb_false_iff in H as [Hl Hpre].
    cbn [app at_register_http]. fold (is_register_http line).
    rewrite Hl, (IH Hpre). now destruct (at_register_http rest).
Qed.

Lemma at_register_http_def_stop (pre rest : list str) :
  existsb is_register_http pre = true ->
  existsb stops_init_scan rest = true ->
  at_register_http (pre ++ rest) <> None.
Proof.
  induction pre as [|line pre IH]; intros Hdef Hstop; [discriminate Hdef|].
  cbn [app at_register_http]. fold (is_register_http line).
  cbn [existsb] in Hdef. destruct (is_register_http line).
  - pose proof (insert_init_call_spec (pre ++ rest)) as H.
    destruct (insert_init_call (pre ++ rest)); [discriminate|].
    rewrite existsb_app, Hstop, orb_true_r in H. discriminate H.
  - specialize (IH Hdef Hstop).
    destruct (at_register_http (pre ++ rest)); [discriminate | congruence].
Qed.

(** What [_add_openapi_import] does to lines without the import: the
    first marker line becomes the import and the marker, or the import
    goes in as a line of its own. *)
Lemma add_openapi_import_shape (lines : list str) :
  existsb (str_in OPENAPI_IMPORT) lines = false ->
  exists pre post,
    (_add_openapi_import lines = (true, pre ++ import_and_marker :: post)
     /\ exists line, lines = pre ++ line :: post
                     /\ str_in FORGE_AUTO_IMPORTS line = true)
    \/ (_add_openapi_import lines = (true, pre ++ OPENAPI_IMPORT :: post)
        /\ lines = pre ++ post).
Proof.
  intros H. unfold _add_openapi_import. rewrite H.
  pose proof (replace_marker_line_spec lines) as Hm.
  destruct (replace_marker_line lines) as [lines'|].
  - destruct Hm as [pre [line [post [-> [-> [Hl _]]]]]].
    exists pre, post. left. split; [reflexivity|]. now exists line.
  - exists (firstn (_find_import_insertion_point lines) lines),
           (skipn (_find_import_insertion_point lines) lines).
    right. split; [reflexivity|]. symmetry. apply firstn_skipn.
Qed.

Lemma init_call_keeps (x : str) (lines : list str) :
  existsb (str_in x) lines = true ->
  existsb (str_in x) (snd (_add_api_init_call lines)) = true.
Proof.
  intros H. pose proof (add_api_init_call_shape lines) as Hs.
  destruct (_add_api_init_call lines) as [[|] lines']; cbn [snd].
  - destruct Hs as [pre [post [-> [-> _]]]].
    rewrite existsb_app in *. cbn [existsb].
    apply orb_true_iff in H as [-> | ->]; [reflexivity|].
    now rewrite !orb_true_r.
  - now subst.
Qed.

(** A content that holds the import, and holds the call or has no place
    for it, is left alone. *)
Lemma update_api_file_stable (content : str) :
  str_in OPENAPI_IMPORT content = true ->
  str_in API_INIT_CALL content = true
  \/ at_register_http (split nl content) = None ->
  _update_api_file content = (false, content).
Proof.
  intros HI HC. unfold _update_api_file. rewrite HI. cbn [negb].
  destruct (str_in API_INIT_CALL content) eqn:E; cbn [negb]; [reflexivity|].
  destruct HC as [HC | HC]; [discriminate HC|].
  unfold _add_api_init_call.
  rewrite (str_in_lines_iff API_INIT_CALL content eq_refl), E, HC.
  reflexivity.
Qed.

Lemma import_and_marker_lines :
  split nl import_and_marker = [OPENAPI_IMPORT; FORGE_AUTO_IMPORTS].
Proof. reflexivity. Qed.

(** If the call finds no place in the lines with the import added, it
    finds none after the file is written and read again. *)
Lemma no_place_after_reread (lines : list str) :
  forallb plain_line lines = true ->
  existsb (str_in OPENAPI_IMPORT) lines = false ->
  at_register_http (snd (_add_openapi_import lines)) = None ->
  at_register_http (flat_map (split nl) (snd (_add_openapi_import lines))) = None.
Proof.
  intros Hplain HI Hnone.
  destruct (add_openapi_import_shape lines HI)
    as [pre [post [[E [line [-> Hl]]] | [E ->]]]]; rewrite E in *; cbn [snd] in *.
  - rewrite forallb_app in Hplain. cbn [forallb] in Hplain.
    apply andb_true_iff in Hplain as [Hpre Hpost].
    apply andb_true_iff in Hpost as [_ Hpost].
    rewrite flat_map_app. cbn [flat_map].
    rewrite (flat_map_split_plain _ Hpre), (flat_map_split_plain _ Hpost).
    rewrite import_and_marker_lines.
    destruct (existsb is_register_http pre) eqn:Hdef.
    + exfalso. apply (at_register_http_def_stop pre (import_and_marker :: post));
        [exact Hdef | reflexivity | exact Hnone].
    + rewrite (at_register_http_app_nodef _ _ Hdef).
      rewrite (at_register_http_app_nodef _ _ Hdef) in Hnone.
      change (at_register_http (import_and_marker :: post))
        with (option_map (cons import_and_marker) (at_register_http post)) in Hnone.
      change (at_register_http
                ([OPENAPI_IMPORT; FORGE_AUTO_IMPORTS] ++ post))
        with (option_map (cons OPENAPI_IMPORT)
                (option_map (cons FORGE_AUTO_IMPORTS) (at_register_http post))).
      destruct (at_register_http post);
        [cbn [option_map] in Hnone; discriminate Hnone | reflexivity].
  - rewrite forallb_app in Hplain.
    apply andb_true_iff in Hplain as [Hpre Hpost].
    rewrite flat_map_split_plain; [exact Hnone|].
    rewrite forallb_app. cbn [forallb]. now rewrite Hpre, Hpost.
Qed.

End ApiFileFacts.

Import ApiFileFacts.

Module ApiFileSteps.

(** The second step of [_update_api_file] keeps what the lines hold. *)
Lemma second_step_keeps (x : str) (run : bool) (lines lines' : list str)
    (m : bool) :
  (if run then _add_api_init_call lines else (false, lines)) = (m, lines') ->
  existsb (str_in x) lines = true -> existsb (str_in x) lines' = true.
Proof.
  intros E H. destruct run.
  - replace lines' with (snd (_add_api_init_call lines)) by now rewrite E.
    now apply init_call_keeps.
  - now injection E as _ <-.
Qed.

(** The first step on a content without the import. *)
Lemma first_step_adds (content : str) :
  str_in OPENAPI_IMPORT content = false ->
  fst (_add_openapi_import (split nl content)) = true
  /\ existsb (str_in OPENAPI_IMPORT) (snd (_add_openapi_import (split nl content)))
     = true
  /\ exists l rest, snd (_add_openapi_import (split nl content)) = l :: rest.
Proof.
  intros HI.
  assert (HI' : existsb (str_in OPENAPI_IMPORT) (split nl content) = false)
    by now rewrite str_in_lines_iff.
  destruct (add_openapi_import_shape _ HI')
    as [pre [post [[E _] | [E _]]]]; rewrite E; cbn [fst snd];
    (split; [reflexivity|]); (split;
      [rewrite existsb_app; cbn [existsb];
       first [rewrite (str_in_refl OPENAPI_IMPORT)
             | replace (str_in OPENAPI_IMPORT import_and_marker) with true
                 by reflexivity];
       now rewrite orb_true_r
      | destruct pre; simpl; eauto]).
Qed.

(** A line without the marker survives the first step. *)
Lemma first_step_keeps_line (lines : list str) (l : str) :
  existsb (str_in OPENAPI_IMPORT) lines = false ->
  In l lines -> str_in FORGE_AUTO_IMPORTS l = false ->
  In l (snd (_add_openapi_import lines)).
Proof.
  intros HI Hin Hl.
  destruct (add_openapi_import_shape _ HI)
    as [pre [post [[E [line [-> Hline]]] | [E ->]]]]; rewrite E; cbn [snd];
    apply in_app_or in Hin; apply in_or_app.
  - destruct Hin as [Hin | [<- | Hin]]; [now left | congruence | right; now right].
  - destruct Hin as [Hin | Hin]; [now left | right; now right].
Qed.

(** What no line holds before the first step, and neither of the lines
    it writes, no line holds after it. *)
Lemma first_step_none (f : str -> bool) (lines : list str) :
  f OPENAPI_IMPORT = false -> f import_and_marker = false ->
  existsb (str_in OPENAPI_IMPORT) lines = false ->
  existsb f lines = false ->
  existsb f (snd (_add_openapi_import lines)) = false.
Proof.
  intros F1 F2 HI HC.
  destruct (add_openapi_import_shape _ HI)
    as [pre [post [[E [line [-> Hline]]] | [E ->]]]]; rewrite E; cbn [snd];
    rewrite existsb_app in *; cbn [existsb] in *;
    apply orb_false_iff in HC as [-> HC].
  - apply orb_false_iff in HC as [_ ->]. now rewrite F2.
  - now rewrite F1, HC.
Qed.

Lemma no_call_no_place (lines : list str) :
  _add_api_init_call lines = (false, lines) ->
  existsb (str_in API_INIT_CALL) lines = false ->
  at_register_http lines = None.
Proof.
  unfold _add_api_init_call. intros E H. rewrite H in E.
  destruct (at_register_http lines); [discriminate E | reflexivity].
Qed.

(** The outcome of [_update_api_file]: nothing to do, or a content that a
    further run leaves alone. *)
Lemma update_api_file_result (content : str) :
  forallb (fun l => negb (str_in FORGE_AUTO_IMPORTS l && str_in API_INIT_CALL l))
    (lines content) = true ->
  _update_api_file content = (false, content)
  \/ (str_in OPENAPI_IMPORT (snd (_update_api_file content)) = true
      /\ (str_in API_INIT_CALL (snd (_update_api_file content)) = true
          \/ at_register_http (split nl (snd (_update_api_file content))) = None)).
Proof.
  intros Hboth. unfold _update_api_file.
  destruct (str_in OPENAPI_IMPORT content) eqn:HI;
    destruct (str_in API_INIT_CALL content) eqn:HC; cbn [negb].
  - now left.
  - destruct (_add_api_init_call (split nl content)) as [m2 L2] eqn:E2.
    cbn [orb snd]. destruct m2; [right | now left].
    pose proof (add_api_init_call_shape (split nl content)) as Hs.
    rewrite E2 in Hs. destruct Hs as [pre [post [Hsplit [-> _]]]].
    split; [|left]; apply str_in_join; rewrite existsb_app; cbn [existsb].
    + rewrite <- (str_in_lines_iff _ _ (eq_refl : plain_line OPENAPI_IMPORT = true)),
        Hsplit, existsb_app in HI.
      apply orb_true_iff in HI as [-> | ->]; [reflexivity | now rewrite !orb_true_r].
    + replace (str_in API_INIT_CALL call_line) with true by reflexivity.
      now rewrite orb_true_r.
  - destruct (first_step_adds _ HI) as [Hm [Hin _]].
    assert (HI0 : existsb (str_in OPENAPI_IMPORT) (split nl content) = false)
      by now rewrite str_in_lines_iff.
    pose proof (first_step_keeps_line (split nl content)) as Hkeep.
    destruct (_add_openapi_import (split nl content)) as [m1 L1].
    cbn [fst snd] in Hm, Hin, Hkeep. subst m1. cbn [orb snd]. right.
    split; [|left]; apply str_in_join; [exact Hin|].
    rewrite <- (str_in_lines_iff _ _ (eq_refl : plain_line API_INIT_CALL = true)) in HC.
    apply existsb_exists in HC as [l0 [Hl0 Hcall]].
    apply existsb_exists. exists l0. split; [|exact Hcall].
    apply Hkeep; [exact HI0 | exact Hl0 |].
    unfold lines in Hboth. rewrite forallb_forall in Hboth.
    specialize (Hboth l0 Hl0). rewrite Hcall, andb_true_r in Hboth.
    now apply negb_true_iff in Hboth.
  - destruct (first_step_adds _ HI) as [Hm [Hin [l [rest Hne]]]].
    assert (HI0 : existsb (str_in OPENAPI_IMPORT) (split nl content) = false)
      by now rewrite str_in_lines_iff.
    pose proof (no_place_after_reread (split nl content)
                  (split_lines_plain nl content) HI0) as Hreread.
    destruct (_add_openapi_import (split nl content)) as [m1 L1].
    cbn [fst snd] in Hm, Hin, Hne, Hreread. subst m1.
    destruct (_add_api_init_call L1) as [m2 L2] eqn:E2. cbn [orb snd]. right.
    pose proof (add_api_init_call_shape L1) as Hs. rewrite E2 in Hs.
    split.
    + apply str_in_join.
      now apply (second_step_keeps OPENAPI_IMPORT true L1 L2 m2 E2).
    + destruct m2.
      * left. destruct Hs as [pre [post [_ [-> _]]]].
        apply str_in_join. rewrite existsb_app. cbn [existsb].
        replace (str_in API_INIT_CALL call_line) with true by reflexivity.
        now rewrite orb_true_r.
      * subst L2. destruct (existsb (str_in API_INIT_CALL) L1) eqn:EC.
        -- left. now apply str_in_join.
        -- right. rewrite Hne, split_join_flat, <- Hne.
           apply Hreread. now apply no_call_no_place.
Qed.

(** Whatever the content, the content afterwards holds the import. *)
Lemma update_api_file_import_present (content : str) :
  str_in OPENAPI_IMPORT (snd (_update_api_file content)) = true.
Proof.
  unfold _update_api_file.
  destruct (str_in OPENAPI_IMPORT content) eqn:HI; cbn [negb].
  - destruct (if negb (str_in API_INIT_CALL content)
              then _add_api_init_call (split nl content)
              else (false, split nl content)) as [m2 L2] eqn:E2.
    cbn [orb snd]. destruct m2; [|exact HI].
    apply str_in_join. apply (second_step_keeps _ _ _ _ _ E2).
    now rewrite str_in_lines_iff.
  - destruct (first_step_adds _ HI) as [Hm [Hin _]].
    destruct (_add_openapi_import (split nl content)) as [m1 L1].
    cbn [fst snd] in Hm, Hin. subst m1.
    destruct (if negb (str_in API_INIT_CALL content)
              then _add_api_init_call L1
              else (false, L1)) as [m2 L2] eqn:E2.
    cbn [orb snd]. apply str_in_join.
    now apply (second_step_keeps _ _ _ _ _ E2).
Qed.

End ApiFileSteps.

Import ApiFileSteps.

(** X6: whatever the content of api.py, the content after
    [_update_api_file] holds the import of [configure_openapi]. *)
Theorem update_api_file_has_import (content : str) :
  str_in OPENAPI_IMPORT (snd (_update_api_file content)) = true.
Proof. apply update_api_file_import_present. Qed.

(** X7: when no line of api.py holds both the auto-imports marker and
    [configure_openapi(app)], running [_update_api_file] on the content it
    has written changes nothing and returns False. *)
Theorem update_api_file_idempotent (content : str) :
  forallb (fun l => negb (str_in FORGE_AUTO_IMPORTS l && str_in API_INIT_CALL l))
    (lines content) = true ->
  _update_api_file (snd (_update_api_file content))
  = (false, snd (_update_api_file content)).
Proof.
  intros Hboth.
  destruct (update_api_file_result content Hboth) as [E | [HI HC]].
  - rewrite E. exact E.
  - now apply update_api_file_stable.
Qed.

Lemma update_api_file_idempotent_witness :
  let content :=
    join_lines [lit "from flask import Blueprint"; lit "# [forge:auto-imports]";
                lit ""; lit "def register_http(app):";
                lit "    # [forge:auto-init]"; lit "    pass"; lit ""] in
  fst (_update_api_file content) = true
  /\ _update_api_file (snd (_update_api_file content))
     = (false, snd (_update_api_file content)).
Proof.
  split; [reflexivity|].
  apply (update_api_file_idempotent
           (join_lines [lit "from flask import Blueprint";
                        lit "# [forge:auto-imports]"; lit "";
                        lit "def register_http(app):";
                        lit "    # [forge:auto-init]"; lit "    pass"; lit ""])).
  reflexivity.
Defined.

(** The condition of X7 is needed: the marker loop replaces the whole
    marker line, so a call written on that line is lost and the next run
    adds it again. *)
Example update_api_file_marker_line_lost :
  let content :=
    join_lines [lit "def register_http(app):";
                lit "    configure_openapi(app)  # [forge:auto-imports]";
                lit "    pass"] in
  _update_api_file content
  = (true, join_lines [lit "def register_http(app):";
                       lit "from .ext.openapi import configure_openapi";
                       lit "# [forge:auto-imports]"; lit "    pass"])
  /\ fst (_update_api_file (snd (_update_api_file content))) = true.
Proof. split; reflexivity. Qed.

(** X8: when api.py holds neither [configure_openapi(app)] nor
    [def register_http(app], the call is not added: the content afterwards
    does not hold it, and the flag only tells whether the import was
    added. *)
Theorem update_api_file_without_register_http (content : str) :
  str_in API_INIT_CALL content = false ->
  str_in (lit "def register_http(app") content = false ->
  fst (_update_api_file content) = negb (str_in OPENAPI_IMPORT content)
  /\ str_in API_INIT_CALL (snd (_update_api_file content)) = false.
Proof.
  intros HC Hdef.
  assert (Hdef0 : existsb is_register_http (split nl content) = false).
  { change (existsb (str_in (lit "def register_http(app")) (split nl content)
            = false).
    now rewrite (str_in_lines_iff (lit "def register_http(app") content eq_refl). }
  assert (HC0 : existsb (str_in API_INIT_CALL) (split nl content) = false)
    by now rewrite (str_in_lines_iff API_INIT_CALL content eq_refl).
  unfold _update_api_file. rewrite HC. cbn [negb].
  destruct (str_in OPENAPI_IMPORT content) eqn:HI; cbn [negb].
  - unfold _add_api_init_call.
    rewrite HC0, (at_register_http_none _ Hdef0). now split.
  - destruct (first_step_adds _ HI) as [Hm [_ [l [rest Hne]]]].
    assert (HI0 : existsb (str_in OPENAPI_IMPORT) (split nl content) = false)
      by now rewrite str_in_lines_iff.
    pose proof (first_step_none is_register_http (split nl content)
                  eq_refl eq_refl HI0 Hdef0) as Hdef1.
    pose proof (first_step_none (str_in API_INIT_CALL) (split nl content)
                  eq_refl eq_refl HI0 HC0) as HC1.
    destruct (_add_openapi_import (split nl content)) as [m1 L1].
    cbn [fst snd] in Hm, Hne, Hdef1, HC1. subst m1.
    unfold _add_api_init_call. rewrite HC1, (at_register_http_none _ Hdef1).
    cbn [orb fst snd]. split; [reflexivity|].
    destruct (str_in API_INIT_CALL (join_lines L1)) eqn:E; [|reflexivity].
    rewrite Hne in E. apply (str_in_join_inv API_INIT_CALL _ _ eq_refl) in E.
    rewrite <- Hne in E. congruence.
Qed.

Lemma update_api_file_without_register_http_witness :
  fst (_update_api_file (join_lines [lit "from flask import Blueprint"; lit ""]))
  = negb (str_in OPENAPI_IMPORT
            (join_lines [lit "from flask import Blueprint"; lit ""]))
  /\ str_in API_INIT_CALL
       (snd (_update_api_file
               (join_lines [lit "from flask import Blueprint"; lit ""])))
     = false.
Proof.
  apply (update_api_file_without_register_http
           (join_lines [lit "from flask import Blueprint"; lit ""]));
    reflexivity.
Defined.

(** ** The dependency edit of pyproject.toml *)

Module DepsFacts.

Ltac same_text :=
  repeat (simpl; rewrite <- ?app_assoc); reflexivity.

Lemma dep_at_iff (dep t : str) :
  dep_at dep t = true
  <-> exists q c b, t = q :: dep ++ c :: b
                    /\ is_quote q = true /\ ends_dep_name c = true.
Proof.
  unfold dep_at. destruct t as [|q r].
  - split; [discriminate | intros [q [c [b [H _]]]]; discriminate H].
  - split.
    + intros H. apply andb_true_iff in H as [H Hc].
      apply andb_true_iff in H as [Hq Hd].
      apply starts_with_iff in Hd as [r' ->].
      rewrite skipn_app, skipn_all, Nat.sub_diag in Hc. simpl in Hc.
      destruct r' as [|c b]; [discriminate Hc|].
      now exists q, c, b.
    + intros [q' [c [b [[= -> ->] [Hq Hc]]]]].
      rewrite Hq, starts_with_app, skipn_app, skipn_all, Nat.sub_diag.
      simpl. exact Hc.
Qed.

Lemma dep_declared_iff (dep t : str) :
  dep_declared dep t = true
  <-> exists a q c b, t = a ++ q :: dep ++ c :: b
                      /\ is_quote q = true /\ ends_dep_name c = true.
Proof.
  induction t as [|x t IH].
  - simpl. split; [discriminate|].
    intros [a [q [c [b [H _]]]]]. destruct a; discriminate H.
  - change (dep_declared dep (x :: t))
      with (dep_at dep (x :: t) || dep_declared dep t).
    rewrite orb_true_iff, dep_at_iff, IH. split.
    + intros [[q [c [b [H Hqc]]]] | [a [q [c [b [H Hqc]]]]]].
      * exists [], q, c, b. now split.
      * exists (x :: a), q, c, b. rewrite H. now split.
    + intros [[|y a] [q [c [b [H Hqc]]]]].
      * left. now exists q, c, b.
      * right. injection H as _ H. now exists a, q, c, b.
Qed.

(** A piece of a text that does not hold [z] lies in front of a given
    [z] or behind it. *)
Lemma piece_avoids (X M Y A B : str) (z : ascii) :
  X ++ M ++ Y = A ++ z :: B -> ~ In z M ->
  (exists Y', A = X ++ M ++ Y') \/ (exists X', B = X' ++ M ++ Y).
Proof.
  revert A. induction X as [|x X IH]; intros A H Hz.
  - left. simpl in *. revert A H. induction M as [|m M IHM]; intros A H.
    + now exists A.
    + destruct A as [|a A]; simpl in H; injection H as -> H.
      * exfalso. apply Hz. now left.
      * destruct (IHM (fun F => Hz (or_intror F)) A H) as [Y' ->].
        now exists Y'.
  - destruct A as [|a A]; simpl in H; injection H as -> H.
    + right. now exists X.
    + destruct (IH A H Hz) as [[Y' ->] | [X' ->]].
      * left. now exists Y'.
      * right. now exists X'.
Qed.

Lemma not_in_forallb (z : ascii) (d : str) :
  forallb (fun c => negb (Ascii.eqb c z)) d = true -> ~ In z d.
Proof.
  intros H Hin. rewrite forallb_forall in H. specialize (H z Hin).
  now rewrite Ascii.eqb_refl in H.
Qed.

(** Text put in front of a character that no declaration holds breaks no
    declaration. *)
Lemma declared_insert_before (dep A ins B : str) (z : ascii) :
  is_quote z = false -> ends_dep_name z = false ->
  forallb (fun c => negb (Ascii.eqb c z)) dep = true ->
  dep_declared dep (A ++ z :: B) = true ->
  dep_declared dep (A ++ ins ++ z :: B) = true.
Proof.
  intros Hq Hc Hd H. apply dep_declared_iff in H as [a [q [c [b [H [Hq' Hc']]]]]].
  apply dep_declared_iff.
  assert (Hz : ~ In z (q :: dep ++ [c])).
  { intros [-> | Hin]; [congruence|].
    apply in_app_or in Hin as [Hin | [-> | []]]; [|congruence].
    now apply (not_in_forallb _ _ Hd). }
  replace (a ++ q :: dep ++ c :: b) with (a ++ (q :: dep ++ [c]) ++ b) in H
    by (simpl; now rewrite <- app_assoc).
  symmetry in H.
  destruct (piece_avoids _ _ _ _ _ _ H Hz) as [[Y' ->] | [X' ->]].
  - exists a, q, c, (Y' ++ ins ++ z :: B). split; [|now split].
    same_text.
  - exists (A ++ ins ++ z :: X'), q, c, b. split; [|now split].
    same_text.
Qed.

(** Lines put behind a line break break no declaration. *)
Lemma declared_insert_lines (dep A ins B : str) :
  forallb (fun c => negb (Ascii.eqb c nl)) dep = true ->
  dep_declared dep (A ++ nl :: B) = true ->
  dep_declared dep (A ++ nl :: ins ++ nl :: B) = true.
Proof.
  intros Hd H. apply dep_declared_iff in H as [a [q [c [b [H [Hq Hc]]]]]].
  apply dep_declared_iff.
  assert (Hz : ~ In nl (q :: dep)).
  { intros [-> | Hin]; [discriminate Hq|]. now apply (not_in_forallb _ _ Hd). }
  replace (a ++ q :: dep ++ c :: b) with (a ++ (q :: dep) ++ c :: b) in H
    by reflexivity.
  symmetry in H.
  destruct (piece_avoids _ _ _ _ _ _ H Hz) as [[Y' ->] | [X' ->]].
  - rewrite <- !app_assoc in H. apply app_inv_head in H.
    simpl in H. injection H as H. apply app_inv_head in H.
    destruct Y' as [|c' Y']; simpl in H; injection H as -> H.
    + exists a, q, nl, (ins ++ nl :: B). split; [|now split].
      same_text.
    + exists a, q, c', (Y' ++ nl :: ins ++ nl :: B). split; [|now split].
      same_text.
  - exists (A ++ nl :: ins ++ nl :: X'), q, c, b. split; [|now split].
    same_text.
Qed.

Lemma declared_append (dep A B : str) :
  dep_declared dep A = true -> dep_declared dep (A ++ B) = true.
Proof.
  intros H. apply dep_declared_iff in H as [a [q [c [b [-> Hqc]]]]].
  apply dep_declared_iff. exists a, q, c, (b ++ B). split; [|exact Hqc].
  same_text.
Qed.

(** A text that holds the entry of [dep] declares [dep]. *)
Lemma declared_entry (dep a b : str) :
  dep_declared dep (a ++ dep_entry dep ++ b) = true.
Proof.
  apply dep_declared_iff.
  exists a, Release.dquote, ">"%char,
    (lit "=0" ++ [Release.dquote; ","%char] ++ b).
  split; [|now split]. unfold dep_entry. same_text.
Qed.

End DepsFacts.

Module DepsEdit.

Import DepsFacts.

Lemma rfind_char_some (c : ascii) (t : str) (i : nat) :
  rfind_char c t = Some i -> skipn i t = c :: skipn (S i) t.
Proof.
  revert i; induction t as [|x r IH]; intros i; [discriminate|].
  cbn [rfind_char]. destruct (rfind_char c r) as [j|].
  - intros [= <-]. exact (IH j eq_refl).
  - destruct (Ascii.eqb_spec x c) as [-> | _]; [|discriminate].
    intros [= <-]. reflexivity.
Qed.

Lemma rfind_char_none (c : ascii) (t : str) :
  rfind_char c t = None -> ~ In c t.
Proof.
  induction t as [|x r IH]; [intros _ []|].
  cbn [rfind_char]. destruct (rfind_char c r); [discriminate|].
  destruct (Ascii.eqb_spec x c) as [-> | Hx]; [discriminate|].
  intros _ [H | H]; [congruence | now apply IH].
Qed.

Lemma strip_in (c : ascii) (t : str) : In c (strip t) -> In c t.
Proof.
  unfold strip. intros H.
  destruct (lstrip_split t) as [ws [Ht _]].
  destruct (rstrip_split (lstrip t)) as [ws' [Hl _]].
  rewrite Ht, Hl. apply in_or_app. right. apply in_or_app. now left.
Qed.

Lemma ends_with_bracket_in (t : str) :
  ends_with (lit "]") t = true -> In "]"%char t.
Proof.
  unfold ends_with. intros H. apply starts_with_iff in H as [r Hr].
  apply in_rev. rewrite Hr. now left.
Qed.

(** The lines after the loop: the first line that holds
    [dependencies = [] gets the entries in front of its last bracket, or
    is followed by one line for each entry. *)
Lemma add_missing_deps_shape (missing lines : list str) :
  existsb (str_in DEPS_HEAD) lines = true ->
  exists pre line post,
    lines = pre ++ line :: post
    /\ ((exists front back,
            line = front ++ "]"%char :: back
            /\ add_missing_deps missing lines
               = pre ++ (front ++ concat (map dep_entry missing)
                         ++ "]"%char :: back) :: post)
        \/ add_missing_deps missing lines
           = pre ++ line :: map (fun dep => lit "    " ++ dep_entry dep) missing
                 ++ post).
Proof.
  induction lines as [|line rest IH]; [discriminate|].
  cbn [existsb add_missing_deps]. fold DEPS_HEAD.
  destruct (str_in DEPS_HEAD line) eqn:E.
  - intros _. exists [], line, rest. split; [reflexivity|].
    destruct (ends_with (lit "]") (strip line)) eqn:Eb; [left | now right].
    destruct (rfind_char "]" line) as [i|] eqn:Er.
    + exists (firstn i line), (skipn (S i) line).
      rewrite <- (rfind_char_some _ _ _ Er). split; [|reflexivity].
      symmetry. apply firstn_skipn.
    + exfalso. apply (rfind_char_none _ _ Er).
      apply strip_in. now apply ends_with_bracket_in.
  - cbn [orb]. intros H.
    destruct (IH H) as [pre [l [post [-> Hcase]]]].
    exists (line :: pre), l, post. split; [reflexivity|].
    destruct Hcase as [[front [back [-> ->]]] | ->].
    + left. now exists front, back.
    + now right.
Qed.

Lemma concat_cons_nl (e : str) (es : list str) :
  concat (map (cons nl) (e :: es)) = nl :: join_lines (e :: es).
Proof. rewrite join_lines_cons. reflexivity. Qed.

(** The same on the text of the file. *)
Lemma add_missing_deps_text (missing lines : list str) :
  existsb (str_in DEPS_HEAD) lines = true ->
  exists A B,
    (join_lines lines = A ++ "]"%char :: B
     /\ join_lines (add_missing_deps missing lines)
        = A ++ concat (map dep_entry missing) ++ "]"%char :: B)
    \/ (join_lines lines = A ++ B
        /\ (B = [] \/ exists B', B = nl :: B')
        /\ join_lines (add_missing_deps missing lines)
           = A ++ concat (map (cons nl)
                            (map (fun dep => lit "    " ++ dep_entry dep) missing))
               ++ B).
Proof.
  intros H.
  destruct (add_missing_deps_shape missing lines H)
    as [pre [line [post [-> [[front [back [-> ->]]] | ->]]]]].
  - exists (concat (map (fun x => x ++ [nl]) pre) ++ front),
           (back ++ concat (map (cons nl) post)).
    left. rewrite !join_lines_app, !join_lines_cons. split; same_text.
  - exists (concat (map (fun x => x ++ [nl]) pre) ++ line),
           (concat (map (cons nl) post)).
    right. rewrite !join_lines_app, !join_lines_cons.
    split; [same_text|]. split.
    + destruct post as [|p post]; [now left | right].
      rewrite concat_cons_nl. eauto.
    + rewrite map_app, concat_app. same_text.
Qed.

End DepsEdit.

Module DepsUpdate.

Import DepsFacts DepsEdit.

Lemma required_dep_chars (dep : str) :
  In dep required_deps ->
  forallb (fun c => negb (Ascii.eqb c "]")) dep = true
  /\ forallb (fun c => negb (Ascii.eqb c nl)) dep = true.
Proof. intros [<- | [<- | []]]; split; reflexivity. Qed.

Lemma str_in_concat_map (f : str -> str) (x : str) (l : list str) (d : str) :
  In d l -> str_in x (f d) = true -> str_in x (concat (map f l)) = true.
Proof.
  intros H Hx. apply in_split in H as [m1 [m2 ->]].
  rewrite map_app, concat_app. cbn [map concat]. now apply str_in_app.
Qed.

Lemma declared_by_entry (dep t : str) :
  str_in (dep_entry dep) t = true -> dep_declared dep t = true.
Proof.
  intros H. apply str_in_iff in H as [a [b ->]]. apply declared_entry.
Qed.

(** After the edit of a file with a [dependencies = [] line, what was
    declared is declared, and so is every dependency that was added. *)
Lemma edit_declares (missing lines : list str) (dep : str) :
  existsb (str_in DEPS_HEAD) lines = true ->
  In dep required_deps ->
  In dep missing \/ dep_declared dep (join_lines lines) = true ->
  dep_declared dep (join_lines (add_missing_deps missing lines)) = true.
Proof.
  intros Hhead Hreq Hdep.
  destruct (required_dep_chars _ Hreq) as [Hbr Hnl].
  destruct (add_missing_deps_text missing lines Hhead)
    as [A [B [[Hold ->] | [Hold [HB ->]]]]].
  - destruct Hdep as [Hin | Hdecl].
    + apply declared_by_entry, str_in_app.
      apply (str_in_concat_map dep_entry _ _ dep Hin), str_in_refl.
    + rewrite Hold in Hdecl.
      now apply declared_insert_before.
  - destruct Hdep as [Hin | Hdecl].
    + apply declared_by_entry, str_in_app.
      apply (str_in_concat_map (cons nl) _ _ (lit "    " ++ dep_entry dep)).
      * now apply (in_map (fun d => lit "    " ++ dep_entry d)).
      * apply str_in_cons, str_in_iff. exists (lit "    "), [].
        now rewrite app_nil_r.
    + rewrite Hold in Hdecl. destruct missing as [|m ms].
      * simpl. exact Hdecl.
      * change (map (fun d => lit "    " ++ dep_entry d) (m :: ms))
          with ((lit "    " ++ dep_entry m)
                :: map (fun d => lit "    " ++ dep_entry d) ms).
        rewrite concat_cons_nl.
        destruct HB as [-> | [B' ->]].
        -- rewrite app_nil_r in *. now apply declared_append.
        -- now apply (declared_insert_lines dep A _ B').
Qed.

Lemma all_declared_stable (content : str) :
  forallb (fun dep => dep_declared dep content) required_deps = true ->
  _update_pyproject_dependencies content = (false, content).
Proof.
  unfold _update_pyproject_dependencies, required_deps. cbn [forallb filter].
  intros H. apply andb_true_iff in H as [-> H].
  apply andb_true_iff in H as [-> _]. reflexivity.
Qed.

(** Every required dependency is declared after a run on a file with a
    [dependencies = [] line. *)
Lemma update_declares_all (content : str) :
  existsb (str_in DEPS_HEAD) (lines content) = true ->
  forallb (fun dep => dep_declared dep (snd (_update_pyproject_dependencies content)))
    required_deps = true.
Proof.
  intros Hhead. apply forallb_forall. intros dep Hreq.
  unfold _update_pyproject_dependencies.
  destruct (filter (fun d => negb (dep_declared d content)) required_deps)
    as [|m ms] eqn:Em; cbn [snd].
  - destruct (dep_declared dep content) eqn:E; [reflexivity|]. exfalso.
    assert (Hin : In dep (filter (fun d => negb (dep_declared d content))
                            required_deps)).
    { apply filter_In. split; [exact Hreq | now rewrite E]. }
    now rewrite Em in Hin.
  - rewrite <- Em. apply edit_declares; [exact Hhead | exact Hreq |].
    rewrite join_lines_split.
    destruct (dep_declared dep content) eqn:E; [now right | left].
    apply filter_In. split; [exact Hreq | now rewrite E].
Qed.

End DepsUpdate.

Import DepsEdit DepsUpdate.

(** X9: on a pyproject.toml with a line that holds [dependencies = [],
    both flask-smorest and marshmallow are declared after
    [_update_pyproject_dependencies], and a second run changes nothing and
    returns False. *)
Theorem update_pyproject_dependencies_idempotent (content : str) :
  existsb (str_in (lit "dependencies = [")) (lines content) = true ->
  forallb (fun dep => dep_declared dep (snd (_update_pyproject_dependencies content)))
    required_deps = true
  /\ _update_pyproject_dependencies (snd (_update_pyproject_dependencies content))
     = (false, snd (_update_pyproject_dependencies content)).
Proof.
  intros Hhead. pose proof (update_declares_all content Hhead) as H.
  split; [exact H | now apply all_declared_stable].
Qed.

Lemma update_pyproject_dependencies_idempotent_witness :
  let content :=
    join_lines [lit "[project]"; lit "dependencies = [";
                lit "    " ++ Release.quoted (lit "flask>=3") ++ lit ",";
                lit "    " ++ Release.quoted (lit "marshmallow") ++ lit ",";
                lit "]"; lit ""] in
  fst (_update_pyproject_dependencies content) = true
  /\ _update_pyproject_dependencies (snd (_update_pyproject_dependencies content))
     = (false, snd (_update_pyproject_dependencies content)).
Proof.
  split; [reflexivity|].
  apply (update_pyproject_dependencies_idempotent
           (join_lines [lit "[project]"; lit "dependencies = [";
                lit "    " ++ Release.quoted (lit "flask>=3") ++ lit ",";
                lit "    " ++ Release.quoted (lit "marshmallow") ++ lit ",";
                lit "]"; lit ""])).
  reflexivity.
Defined.

(** X10: on a pyproject.toml without the text [dependencies = [] the
    content is written back as it was, and the function still returns
    True whenever flask-smorest or marshmallow is not declared. *)
Theorem update_pyproject_dependencies_without_array (content : str) :
  str_in (lit "dependencies = [") content = false ->
  _update_pyproject_dependencies content
  = (negb (forallb (fun dep => dep_declared dep content) required_deps), content).
Proof.
  intros H.
  assert (Hlines : existsb (str_in DEPS_HEAD) (split nl content) = false)
    by now rewrite (str_in_lines_iff DEPS_HEAD content eq_refl).
  assert (Hsame : forall missing ls,
             existsb (str_in DEPS_HEAD) ls = false ->
             add_missing_deps missing ls = ls).
  { intros missing ls. induction ls as [|l ls IH]; [reflexivity|].
    cbn [existsb add_missing_deps]. fold DEPS_HEAD. intros E.
    apply orb_false_iff in E as [-> E]. now rewrite (IH E). }
  unfold _update_pyproject_dependencies, required_deps. cbn [filter forallb].
  destruct (dep_declared (lit "flask-smorest") content);
    destruct (dep_declared (lit "marshmallow") content); cbn [negb andb];
    try reflexivity; now rewrite (Hsame _ _ Hlines), join_lines_split.
Qed.

Lemma update_pyproject_dependencies_without_array_witness :
  _update_pyproject_dependencies (join_lines [lit "[project]"; lit "name = x"])
  = (negb (forallb (fun dep => dep_declared dep
                                 (join_lines [lit "[project]"; lit "name = x"]))
             required_deps),
     join_lines [lit "[project]"; lit "name = x"]).
Proof.
  apply (update_pyproject_dependencies_without_array
           (join_lines [lit "[project]"; lit "name = x"])).
  reflexivity.
Defined.

(** ** More on the patchers *)

Module PatcherMore.

Lemma Subseq_refl (a : str) : Subseq a a.
Proof. induction a; constructor; assumption. Qed.

Lemma Subseq_empty (b : str) : Subseq [] b.
Proof. induction b; constructor; assumption. Qed.

Lemma Subseq_app (a a' b b' : str) :
  Subseq a a' -> Subseq b b' -> Subseq (a ++ b) (a' ++ b').
Proof.
  intros Ha Hb. induction Ha; simpl; try (constructor; assumption).
  exact Hb.
Qed.

Lemma Subseq_app_r (a b x : str) : Subseq a b -> Subseq a (x ++ b).
Proof. intros H. induction x; simpl; [exact H | now constructor]. Qed.

Lemma Subseq_app_l (a b x : str) : Subseq a b -> Subseq a (b ++ x).
Proof.
  intros H. rewrite <- (app_nil_r a). apply Subseq_app; [exact H|].
  apply Subseq_empty.
Qed.

Lemma Subseq_insert (a b ins : str) : Subseq (a ++ b) (a ++ ins ++ b).
Proof.
  apply Subseq_app; [apply Subseq_refl|]. apply Subseq_app_r, Subseq_refl.
Qed.

Lemma Subseq_length (a b : str) : Subseq a b -> length a <= length b.
Proof. induction 1; simpl; lia. Qed.

(** At an occurrence the scan emits [new] and goes on behind it. *)
Lemma replace_scan_at (old new rest : str) :
  old <> [] ->
  replace_scan old new 0 (old ++ rest) = new ++ replace_scan old new 0 rest.
Proof.
  intros Hne. destruct old as [|o old']; [congruence|].
  change (replace_scan (o :: old') new 0 ((o :: old') ++ rest))
    with (if starts_with (o :: old') ((o :: old') ++ rest)
          then new ++ replace_scan (o :: old') new (length old') (old' ++ rest)
          else o :: replace_scan (o :: old') new 0 (old' ++ rest)).
  now rewrite starts_with_app, replace_scan_skip.
Qed.

(** Replacing [old] by a text that holds [old] leaves out nothing. *)
Lemma replace_keeps (t old new : str) :
  Subseq old new -> Subseq t (replace t old new).
Proof.
  intros Hsub. unfold replace. destruct old as [|o old'].
  - apply Subseq_app_r. induction t as [|c t IH]; simpl; [constructor|].
    constructor. now apply Subseq_app_r.
  - remember (length t) as n eqn:Hn. revert t Hn.
    induction n as [n IH] using lt_wf_ind. intros t Hn.
    destruct t as [|c t]; [constructor|].
    destruct (starts_with (o :: old') (c :: t)) eqn:E.
    + apply starts_with_iff in E as [rest E]. rewrite E.
      rewrite replace_scan_at by discriminate.
      apply Subseq_app; [exact Hsub|].
      apply (IH (length rest)); [|reflexivity].
      subst n. rewrite E, length_app. simpl. lia.
    + change (replace_scan (o :: old') new 0 (c :: t))
        with (if starts_with (o :: old') (c :: t)
              then new ++ replace_scan (o :: old') new (length old') t
              else c :: replace_scan (o :: old') new 0 t).
      rewrite E. constructor.
      apply (IH (length t)); [subst n; simpl; lia | reflexivity].
Qed.

Lemma rstrip_Subseq (t : str) : Subseq (rstrip t) t.
Proof.
  destruct (rstrip_split t) as [ws [H _]]. rewrite H at 2.
  apply Subseq_app_l, Subseq_refl.
Qed.

Lemma firstn_skipn_insert (n : nat) (t ins : str) :
  Subseq t (firstn n t ++ ins ++ skipn n t).
Proof.
  rewrite <- (firstn_skipn n t) at 1. apply Subseq_insert.
Qed.

End PatcherMore.

Import PatcherMore.

(** X11: [insert_once] only adds text.  The text it returns holds, in
    order, every character of the input up to its trailing whitespace;
    unless the last-resort step is taken it holds the whole input. *)
Theorem insert_once_only_adds (rs : searcher) (text needle anchor : str)
    (before : bool) (fb : option str) (r : str) :
  insert_once rs text needle anchor before fb = Returns r ->
  Subseq (rstrip text) r
  /\ (r = rstrip text ++ nl :: needle ++ [nl] \/ Subseq text r).
Proof.
  assert (Hweak : forall r, Subseq text r -> Subseq (rstrip text) r).
  { intros r0 H. destruct (rstrip_split text) as [ws [Ht _]].
    rewrite Ht in H. clear Ht. revert H. generalize (rstrip text) as a.
    intros a H. remember (a ++ ws) as aw eqn:E. revert a E.
    induction H as [|c x b H IH|c x b H IH]; intros a E.
    - symmetry in E. apply app_eq_nil in E as [-> _]. constructor.
    - destruct a as [|c' a]; [apply Subseq_empty|].
      simpl in E. injection E as -> ->. constructor. now apply IH.
    - constructor. now apply IH. }
  assert (Hlast : Subseq (rstrip text) (rstrip text ++ nl :: needle ++ [nl])).
  { apply Subseq_app_l, Subseq_refl. }
  unfold insert_once; cbv zeta.
  destruct (str_in needle text).
  { intros [= <-]. split; [apply rstrip_Subseq | right; apply Subseq_refl]. }
  destruct (str_in anchor text).
  { intros [= <-].
    assert (H : Subseq text
                  (replace text anchor
                     (if negb before then needle ++ nl :: anchor
                      else anchor ++ nl :: needle))).
    { apply replace_keeps. destruct before; simpl.
      - apply Subseq_app_l, Subseq_refl.
      - apply Subseq_app_r. constructor. apply Subseq_refl. }
    split; [now apply Hweak | now right]. }
  destruct fb as [[|p0 p]|];
    try (intros [= <-]; split; [exact Hlast | now left]).
  destruct (rs (p0 :: p) text true) as [| |start stop];
    [intros H; discriminate H
    | intros [= <-]; split; [exact Hlast | now left] |].
  destruct before; intros [= <-].
  - assert (H : Subseq text (firstn start text ++ needle ++ nl :: skipn start text)).
    { replace (needle ++ nl :: skipn start text)
        with ((needle ++ [nl]) ++ skipn start text)
        by now rewrite <- app_assoc.
      apply firstn_skipn_insert. }
    split; [now apply Hweak | now right].
  - assert (H : Subseq text (firstn stop text ++ nl :: needle ++ skipn stop text)).
    { apply (firstn_skipn_insert stop text (nl :: needle)). }
    split; [now apply Hweak | now right].
Qed.

Lemma insert_once_only_adds_witness :
  Subseq (rstrip (join_lines [lit "a"; lit "# [marker]"; lit "b"; lit ""]))
    (join_lines [lit "a"; lit "x"; lit "# [marker]"; lit "b"; lit ""])
  /\ (join_lines [lit "a"; lit "x"; lit "# [marker]"; lit "b"; lit ""]
      = rstrip (join_lines [lit "a"; lit "# [marker]"; lit "b"; lit ""])
        ++ nl :: lit "x" ++ [nl]
      \/ Subseq (join_lines [lit "a"; lit "# [marker]"; lit "b"; lit ""])
           (join_lines [lit "a"; lit "x"; lit "# [marker]"; lit "b"; lit ""])).
Proof.
  apply (insert_once_only_adds literal_search
           (join_lines [lit "a"; lit "# [marker]"; lit "b"; lit ""]) (lit "x")
           (lit "# [marker]") false None).
  reflexivity.
Defined.

(** X12: a text that holds the anchor still holds it after
    [insert_once], so a later patch finds the same anchor. *)
Theorem insert_once_keeps_anchor (rs : searcher) (text needle anchor : str)
    (before : bool) (fb : option str) :
  str_in anchor text = true ->
  exists r, insert_once rs text needle anchor before fb = Returns r
            /\ str_in anchor r = true.
Proof.
  intros Ha. unfold insert_once. destruct (str_in needle text).
  - now exists text.
  - rewrite Ha. eexists. split; [reflexivity|].
    apply str_in_replace; [exact Ha|]. destruct before; simpl.
    + apply str_in_app_l, str_in_refl.
    + apply str_in_iff. exists (needle ++ [nl]), [].
      rewrite <- app_assoc, app_nil_r. reflexivity.
Qed.

Lemma insert_once_keeps_anchor_witness :
  exists r,
    insert_once literal_search
      (join_lines [lit "a"; lit "# [marker]"; lit "b"]) (lit "x")
      (lit "# [marker]") false None = Returns r
    /\ str_in (lit "# [marker]") r = true.
Proof.
  apply (insert_once_keeps_anchor literal_search
           (join_lines [lit "a"; lit "# [marker]"; lit "b"]) (lit "x")
           (lit "# [marker]") false None).
  reflexivity.
Defined.

Module AnchorOnce.

(** A text that holds a non-empty [a] at exactly one position. *)
Lemma occurs_once_split (a t : str) :
  a <> [] -> occurrences a t = 1 ->
  exists pre post,
    t = pre ++ a ++ post /\ find a t = Some (length pre)
    /\ str_in a post = false.
Proof.
  intros Hne. induction t as [|c t IH].
  - destruct a; [congruence | discriminate].
  - change (occurrences a (c :: t))
      with ((if starts_with a (c :: t) then 1 else 0) + occurrences a t).
    change (find a (c :: t))
      with (if starts_with a (c :: t) then Some 0
            else option_map S (find a t)).
    destruct (starts_with a (c :: t)) eqn:E; intros H.
    + apply starts_with_iff in E as [post E]. exists [], post.
      split; [exact E|]. split; [reflexivity|].
      destruct (str_in a post) eqn:Ep; [exfalso | reflexivity].
      assert (Ht : str_in a t = true).
      { destruct a as [|a0 a']; [congruence|]. simpl in E.
        injection E as _ ->. apply str_in_iff in Ep as [u [v ->]].
        apply str_in_iff. exists (a' ++ u), v. now rewrite <- app_assoc. }
      apply occurrences_pos in Ht. lia.
    + destruct (IH H) as [pre [post [-> [Hf Hp]]]].
      exists (c :: pre), post. split; [reflexivity|].
      split; [now rewrite Hf | exact Hp].
Qed.

End AnchorOnce.

(** X13: when the payload is absent and the anchor occurs exactly once,
    the marker step changes the text at that one place: what stands in
    front of the anchor and what stands behind it come back as they
    were, with the payload and a line break in front of the anchor
    ([before=False]) or a line break and the payload behind it
    ([before=True]). *)
Theorem insert_once_one_anchor_frame (rs : searcher) (text needle anchor : str)
    (before : bool) (fb : option str) :
  anchor <> [] -> str_in needle text = false -> occurrences anchor text = 1 ->
  exists pre post,
    text = pre ++ anchor ++ post
    /\ insert_once rs text needle anchor before fb
       = Returns (pre ++ (if before then anchor ++ nl :: needle
                          else needle ++ nl :: anchor) ++ post).
Proof.
  intros Hne Hn Hocc.
  destruct (AnchorOnce.occurs_once_split _ _ Hne Hocc) as [pre [post [Ht [Hf Hp]]]].
  exists pre, post. split; [exact Ht|]. subst text.
  unfold insert_once. rewrite Hn, (str_in_middle anchor pre post). f_equal.
  rewrite (replace_single _ _ _ _ Hne Hf Hp). now destruct before.
Qed.

Lemma insert_once_one_anchor_frame_witness :
  exists pre post,
    join_lines [lit "a"; lit "# [marker]"; lit "b"] = pre ++ lit "# [marker]" ++ post
    /\ insert_once literal_search
         (join_lines [lit "a"; lit "# [marker]"; lit "b"]) (lit "x")
         (lit "# [marker]") false None
       = Returns (pre ++ (lit "x" ++ nl :: lit "# [marker]") ++ post).
Proof.
  apply (insert_once_one_anchor_frame literal_search
           (join_lines [lit "a"; lit "# [marker]"; lit "b"]) (lit "x")
           (lit "# [marker]") false None);
    [discriminate | reflexivity | reflexivity].
Defined.

Module AfterLine.

Lemma insert_after_line_holds (rs : searcher) (text after_pattern payload r : str) :
  insert_after_line rs text after_pattern payload = Returns r ->
  str_in payload r = true.
Proof.
  unfold insert_after_line.
  destruct (rs after_pattern text false) as [| |start stop];
    [discriminate | |]; destruct (str_in payload text) eqn:E;
    intros [= <-]; try exact E.
  - apply str_in_app_l, str_in_refl.
  - apply str_in_middle.
Qed.

End AfterLine.

(** X14: [insert_after_line] returns the text with the payload put in at
    one position, or the text itself when it already holds the payload;
    either way the result holds the payload.  It raises only when
    [re.search] does. *)
Theorem insert_after_line_puts_payload (rs : searcher)
    (text after_pattern payload : str) :
  match insert_after_line rs text after_pattern payload with
  | Returns r =>
      str_in payload r = true
      /\ (if str_in payload text then r = text
          else exists k, r = firstn k text ++ payload ++ skipn k text)
  | Raises e => e = ReError /\ rs after_pattern text false = SearchError
  end.
Proof.
  unfold insert_after_line.
  destruct (rs after_pattern text false) as [| |start stop]; [now split | |];
    destruct (str_in payload text) eqn:E; (split; [|try reflexivity]);
    try exact E.
  - apply str_in_app_l, str_in_refl.
  - now exists 0.
  - apply str_in_middle.
  - now exists stop.
Qed.

(** X15: for a pattern that compiles, applying [insert_after_line] to its
    own result changes nothing. *)
Theorem insert_after_line_idempotent (rs : searcher)
    (text after_pattern payload : str) :
  (forall t, rs after_pattern t false <> SearchError) ->
  (r <- insert_after_line rs text after_pattern payload ;;
   insert_after_line rs r after_pattern payload)
  = insert_after_line rs text after_pattern payload.
Proof.
  intros Hok.
  assert (Hstable : forall t, str_in payload t = true ->
                              insert_after_line rs t after_pattern payload
                              = Returns t).
  { intros t Ht. unfold insert_after_line.
    pose proof (Hok t) as H.
    destruct (rs after_pattern t false); [congruence | |]; now rewrite Ht. }
  destruct (insert_after_line rs text after_pattern payload) as [r|e] eqn:E;
    [|reflexivity].
  cbn [bind]. apply Hstable.
  exact (AfterLine.insert_after_line_holds _ _ _ _ _ E).
Qed.

Lemma insert_after_line_idempotent_witness :
  (r <- insert_after_line literal_search
          (join_lines [lit "import init_engine"; lit "x = 1"])
          (lit "import init_engine") (nl :: lit "import repo") ;;
   insert_after_line literal_search r (lit "import init_engine")
     (nl :: lit "import repo"))
  = Returns (join_lines [lit "import init_engine"; lit "import repo"; lit "x = 1"]).
Proof.
  rewrite (insert_after_line_idempotent literal_search
             (join_lines [lit "import init_engine"; lit "x = 1"])
             (lit "import init_engine") (nl :: lit "import repo")).
  - reflexivity.
  - intros t. unfold literal_search.
    destruct (find (lit "import init_engine") t); discriminate.
Defined.

(** ** More on the version helpers *)

Module ReleaseMore.

Lemma bump_version_on_triple (major minor patch : Z) :
  bump_version (version_string major minor patch) (lit "patch")
  = Returns (version_string major minor (patch + 1))
  /\ bump_version (version_string major minor patch) (lit "minor")
     = Returns (version_string major (minor + 1) 0)
  /\ bump_version (version_string major minor patch) (lit "major")
     = Returns (version_string (major + 1) 0 0).
Proof.
  unfold bump_version. rewrite version_string_parts. now repeat split.
Qed.

Lemma str_eqb_neq (a b : str) : a <> b -> str_eqb a b = false.
Proof.
  intros H. destruct (str_eqb a b) eqn:E; [|reflexivity].
  apply str_eqb_eq in E. contradiction.
Qed.

(** What [bump_version] does to a version that parses. *)
Lemma bump_version_parsed (s kind : str) (a b c : Z) :
  map py_int (split "." s) = [Some a; Some b; Some c] ->
  bump_version s kind
  = if str_eqb kind (lit "patch") then Returns (version_string a b (c + 1))
    else if str_eqb kind (lit "minor") then Returns (version_string a (b + 1) 0)
    else if str_eqb kind (lit "major") then Returns (version_string (a + 1) 0 0)
    else Raises (ForgeReleaseError (lit "Invalid version type: " ++ kind)).
Proof. intros H. unfold bump_version. now rewrite H. Qed.

Lemma bump_version_returns (s kind r : str) :
  bump_version s kind = Returns r ->
  exists a b c, map py_int (split "." s) = [Some a; Some b; Some c].
Proof.
  unfold bump_version.
  destruct (map py_int (split "." s)) as [|[a|] [|[b|] [|[c|] [|x l]]]];
    try discriminate.
  intros _. now exists a, b, c.
Qed.

End ReleaseMore.

Import ReleaseMore.

(** X16: bumps compose as on triples.  Two patch bumps add 2 to the patch
    number; a minor bump after a patch bump, and a major bump after a
    patch or a minor bump, give what the later bump alone gives. *)
Theorem bump_version_twice (major minor patch : Z) :
  (r <- bump_version (version_string major minor patch) (lit "patch") ;;
   bump_version r (lit "patch"))
  = Returns (version_string major minor (patch + 2))
  /\ (r <- bump_version (version_string major minor patch) (lit "patch") ;;
      bump_version r (lit "minor"))
     = bump_version (version_string major minor patch) (lit "minor")
  /\ (r <- bump_version (version_string major minor patch) (lit "patch") ;;
      bump_version r (lit "major"))
     = bump_version (version_string major minor patch) (lit "major")
  /\ (r <- bump_version (version_string major minor patch) (lit "minor") ;;
      bump_version r (lit "major"))
     = bump_version (version_string major minor patch) (lit "major").
Proof.
  destruct (bump_version_on_triple major minor patch) as [Hp [Hm HM]].
  rewrite Hp, Hm, HM. cbn [bind].
  destruct (bump_version_on_triple major minor (patch + 1)) as [Hp1 [Hm1 HM1]].
  destruct (bump_version_on_triple major (minor + 1) 0) as [_ [_ HM2]].
  rewrite Hp1, Hm1, HM1, HM2.
  replace (patch + 1 + 1)%Z with (patch + 2)%Z by lia. now repeat split.
Qed.

(** X17: the errors of [bump_version].  A version that does not split
    into three parts at the dots, or with a part that is no integer,
    raises ValueError whatever the kind is; a version that parses with a
    kind other than patch, minor and major raises ForgeReleaseError. *)
Theorem bump_version_errors (s kind : str) :
  (length (split "." s) <> 3 -> bump_version s kind = Raises ValueError)
  /\ (In None (map py_int (split "." s)) -> bump_version s kind = Raises ValueError)
  /\ (forall a b c,
         map py_int (split "." s) = [Some a; Some b; Some c] ->
         kind <> lit "patch" -> kind <> lit "minor" -> kind <> lit "major" ->
         bump_version s kind
         = Raises (ForgeReleaseError (lit "Invalid version type: " ++ kind))).
Proof.
  split; [|split].
  - intros H. unfold bump_version.
    rewrite <- (length_map py_int) in H.
    destruct (map py_int (split "." s)) as [|[a|] [|[b|] [|[c|] [|x l]]]];
      try reflexivity. now simpl in H.
  - intros H. unfold bump_version.
    destruct (map py_int (split "." s)) as [|[a|] [|[b|] [|[c|] [|x l]]]];
      try reflexivity.
    simpl in H. exfalso. destruct H as [H | [H | [H | []]]]; discriminate H.
  - intros a b c H Hp Hm HM. rewrite (bump_version_parsed _ _ _ _ _ H).
    now rewrite (str_eqb_neq _ _ Hp), (str_eqb_neq _ _ Hm), (str_eqb_neq _ _ HM).
Qed.

Lemma bump_version_errors_witness :
  bump_version (lit "1.2") (lit "patch") = Raises ValueError
  /\ bump_version (lit "1.x.3") (lit "nope") = Raises ValueError
  /\ bump_version (lit "1.2.3") (lit "Patch")
     = Raises (ForgeReleaseError (lit "Invalid version type: Patch")).
Proof.
  split; [|split].
  - apply (proj1 (bump_version_errors (lit "1.2") (lit "patch"))). discriminate.
  - apply (proj1 (proj2 (bump_version_errors (lit "1.x.3") (lit "nope")))).
    simpl. tauto.
  - apply (proj2 (proj2 (bump_version_errors (lit "1.2.3") (lit "Patch")))
             1%Z 2%Z 3%Z); [reflexivity | discriminate..].
Defined.

(** [int] drops less whitespace than [str.strip]: a part with the
    separator 0x1c in front is no integer, whatever the kind is. *)
Example bump_version_separator_part :
  py_int (ascii_of_nat 28 :: lit "1") = None
  /\ py_int (ascii_of_nat 160 :: lit "1") = Some 1%Z
  /\ bump_version (ascii_of_nat 28 :: lit "1.2.3") (lit "nope") = Raises ValueError.
Proof. repeat split. Qed.

(** X18: what [bump_version] returns is the printed form of a triple: it
    parses again, to a triple that is greater than the one the input
    parses to (major first, then minor, then patch). *)
Theorem bump_version_increases (s kind r : str) :
  bump_version s kind = Returns r ->
  exists a b c a' b' c',
    map py_int (split "." s) = [Some a; Some b; Some c]
    /\ r = version_string a' b' c'
    /\ map py_int (split "." r) = [Some a'; Some b'; Some c']
    /\ (a < a' \/ (a = a' /\ b < b') \/ (a = a' /\ b = b' /\ c < c'))%Z.
Proof.
  intros H. destruct (bump_version_returns _ _ _ H) as [a [b [c Hs]]].
  rewrite (bump_version_parsed _ _ _ _ _ Hs) in H.
  exists a, b, c.
  destruct (str_eqb kind (lit "patch")).
  { injection H as <-. exists a, b, (c + 1)%Z.
    split; [exact Hs|]. split; [reflexivity|].
    split; [apply version_string_parts | lia]. }
  destruct (str_eqb kind (lit "minor")).
  { injection H as <-. exists a, (b + 1)%Z, 0%Z.
    split; [exact Hs|]. split; [reflexivity|].
    split; [apply version_string_parts | lia]. }
  destruct (str_eqb kind (lit "major")); [|discriminate H].
  injection H as <-. exists (a + 1)%Z, 0%Z, 0%Z.
  split; [exact Hs|]. split; [reflexivity|].
  split; [apply version_string_parts | lia].
Qed.

Lemma bump_version_increases_witness :
  exists a b c a' b' c',
    map py_int (split "." (lit " 1.02.+3 ")) = [Some a; Some b; Some c]
    /\ lit "1.3.0" = version_string a' b' c'
    /\ map py_int (split "." (lit "1.3.0")) = [Some a'; Some b'; Some c']
    /\ (a < a' \/ (a = a' /\ b < b') \/ (a = a' /\ b = b' /\ c < c'))%Z.
Proof.
  apply (bump_version_increases (lit " 1.02.+3 ") (lit "minor") (lit "1.3.0")).
  reflexivity.
Defined.

Module VersionSearch.

Lemma unquoted_run_spec (t : str) :
  forallb (fun c => negb (Ascii.eqb c dquote)) (unquoted_run t) = true
  /\ t = unquoted_run t ++ skipn (length (unquoted_run t)) t.
Proof.
  induction t as [|c t [IH1 IH2]]; [now split|].
  cbn [unquoted_run]. destruct (Ascii.eqb c dquote) eqn:E; [now split|].
  cbn [forallb length skipn app]. rewrite E, IH1. split; [reflexivity|].
  now rewrite <- IH2.
Qed.

Lemma lstrip_cons (t r : str) (c : ascii) :
  lstrip t = c :: r ->
  exists ws, t = ws ++ c :: r /\ forallb is_space ws = true.
Proof.
  intros H. destruct (lstrip_split t) as [ws [Ht Hws]].
  exists ws. now rewrite <- H.
Qed.

(** A match attempt that succeeds has read the name, an equals sign
    within whitespace, and the value between double quotes. *)
Lemma match_assignment_sound (name t value : str) :
  match_assignment name t = Some value ->
  value <> []
  /\ forallb (fun c => negb (Ascii.eqb c dquote)) value = true
  /\ exists ws1 ws2 post,
       t = name ++ ws1 ++ "="%char :: ws2 ++ dquote :: value ++ dquote :: post
       /\ forallb is_space ws1 = true /\ forallb is_space ws2 = true.
Proof.
  unfold match_assignment.
  destruct (starts_with name t) eqn:En; [|discriminate].
  apply starts_with_iff in En as [r ->].
  rewrite skipn_app, skipn_all, Nat.sub_diag. cbn [skipn app].
  destruct (lstrip r) as [|c r1] eqn:E1; [discriminate|].
  destruct (Ascii.eqb_spec c "=") as [-> | _]; [|discriminate].
  destruct (lstrip r1) as [|q v0] eqn:E2; [discriminate|].
  destruct (Ascii.eqb_spec q dquote) as [-> | _]; [|discriminate].
  destruct (unquoted_run_spec v0) as [Hrun Hv0].
  destruct (unquoted_run v0) as [|v1 vs] eqn:Ev; [discriminate|].
  destruct (skipn (length (v1 :: vs)) v0) as [|q' post] eqn:Es; [discriminate|].
  destruct (Ascii.eqb_spec q' dquote) as [-> | _]; [|discriminate].
  intros [= <-]. split; [discriminate|]. split; [exact Hrun|].
  apply lstrip_cons in E1 as [ws1 [-> H1]].
  apply lstrip_cons in E2 as [ws2 [-> H2]].
  exists ws1, ws2, post. rewrite Hv0 at 1. now repeat split.
Qed.

Lemma search_assignment_sound (name t value : str) :
  search_assignment name t = Some value ->
  exists pre rest, t = pre ++ rest /\ match_assignment name rest = Some value.
Proof.
  induction t as [|c t IH].
  - cbn [search_assignment].
    destruct (match_assignment name []) eqn:E; [|discriminate].
    intros [= <-]. now exists [], [].
  - cbn [search_assignment].
    destruct (match_assignment name (c :: t)) eqn:E.
    + intros [= <-]. now exists [], (c :: t).
    + intros H. destruct (IH H) as [pre [rest [-> Hm]]].
      now exists (c :: pre), rest.
Qed.

End VersionSearch.

(** X19: a version that [get_current_version] returns is the same in
    both places, not empty and free of double quotes, and each file holds
    it between double quotes behind its name, an equals sign and optional
    whitespace. *)
Theorem get_current_version_sound (pyproject_content init_content v1 v2 : str) :
  get_current_version pyproject_content init_content = Returns (v1, v2) ->
  v1 = v2 /\ v1 <> []
  /\ forallb (fun c => negb (Ascii.eqb c dquote)) v1 = true
  /\ (exists pre ws1 ws2 post,
         pyproject_content
         = pre ++ pyproject_name ++ ws1 ++ "="%char :: ws2 ++ quoted v1 ++ post
         /\ forallb is_space ws1 = true /\ forallb is_space ws2 = true)
  /\ (exists pre ws1 ws2 post,
         init_content
         = pre ++ init_name ++ ws1 ++ "="%char :: ws2 ++ quoted v1 ++ post
         /\ forallb is_space ws1 = true /\ forallb is_space ws2 = true).
Proof.
  unfold get_current_version.
  destruct (search_assignment pyproject_name pyproject_content) as [a|] eqn:Ea;
    [|discriminate].
  destruct (search_assignment init_name init_content) as [b|] eqn:Eb;
    [|discriminate].
  destruct (str_eqb a b) eqn:E; [|discriminate]. cbn [negb].
  intros [= <- <-]. apply str_eqb_eq in E. subst b.
  apply VersionSearch.search_assignment_sound in Ea as [pre1 [rest1 [-> Ha]]].
  apply VersionSearch.search_assignment_sound in Eb as [pre2 [rest2 [-> Hb]]].
  apply VersionSearch.match_assignment_sound
    in Ha as [Hne [Hq [ws1 [ws2 [post [-> [H1 H2]]]]]]].
  apply VersionSearch.match_assignment_sound
    in Hb as [_ [_ [ws3 [ws4 [post' [-> [H3 H4]]]]]]].
  split; [reflexivity|]. split; [exact Hne|]. split; [exact Hq|]. split.
  - exists pre1, ws1, ws2, post. unfold quoted. split; [|now split].
    simpl. now rewrite <- !app_assoc.
  - exists pre2, ws3, ws4, post'. unfold quoted. split; [|now split].
    simpl. now rewrite <- !app_assoc.
Qed.

Lemma get_current_version_sound_witness :
  lit "0.3.1" = lit "0.3.1" /\ lit "0.3.1" <> []
  /\ forallb (fun c => negb (Ascii.eqb c dquote)) (lit "0.3.1") = true
  /\ (exists pre ws1 ws2 post,
         join_lines [lit "[project]"; lit "version = " ++ quoted (lit "0.3.1")]
         = pre ++ pyproject_name ++ ws1 ++ "="%char :: ws2
               ++ quoted (lit "0.3.1") ++ post
         /\ forallb is_space ws1 = true /\ forallb is_space ws2 = true)
  /\ (exists pre ws1 ws2 post,
         lit "__version__=" ++ quoted (lit "0.3.1")
         = pre ++ init_name ++ ws1 ++ "="%char :: ws2
               ++ quoted (lit "0.3.1") ++ post
         /\ forallb is_space ws1 = true /\ forallb is_space ws2 = true).
Proof.
  apply (get_current_version_sound
           (join_lines [lit "[project]"; lit "version = " ++ quoted (lit "0.3.1")])
           (lit "__version__=" ++ quoted (lit "0.3.1"))).
  reflexivity.
Defined.

(** X20: the check script and [get_current_version] agree.  The script
    exits with 0 exactly when [get_current_version] returns, with 1
    exactly when it raises for a version it cannot find, and with 2
    otherwise; no other status occurs. *)
Theorem check_version_sync_agrees (pyproj pkg : str) :
  (exit_code (check_version_sync pyproj pkg) = 0%Z
   <-> exists v, get_current_version pyproj pkg = Returns (v, v))
  /\ (exit_code (check_version_sync pyproj pkg) = 1%Z
      <-> get_current_version pyproj pkg
          = Raises (ForgeReleaseError
                      (lit "Could not find version in pyproject.toml or __init__.py")))
  /\ (exit_code (check_version_sync pyproj pkg) = 0%Z
      \/ exit_code (check_version_sync pyproj pkg) = 1%Z
      \/ exit_code (check_version_sync pyproj pkg) = 2%Z).
Proof.
  unfold check_version_sync, get_current_version.
  destruct (search_assignment pyproject_name pyproj) as [a|];
    destruct (search_assignment init_name pkg) as [b|];
    try (cbn [exit_code]; split; [|split];
         [split; [discriminate | intros [v H]; discriminate H]
         | split; reflexivity | tauto]).
  destruct (str_eqb a b) eqn:E; cbn [negb exit_code].
  - apply str_eqb_eq in E. subst b. split; [|split].
    + split; [intros _; now exists a | reflexivity].
    + split; discriminate.
    + tauto.
  - split; [|split].
    + split; [discriminate | intros [v H]; discriminate H].
    + split; discriminate.
    + tauto.
Qed.

(** ** Writing the version and reading it back *)

Module VersionFilesFacts.

Import VersionFiles VersionSearch.

Lemma take_spaces_lstrip (t : str) :
  t = take_spaces t ++ lstrip t /\ forallb is_space (take_spaces t) = true.
Proof.
  induction t as [|c t [IH1 IH2]]; [now split|].
  cbn [take_spaces lstrip]. destruct (is_space c) eqn:E; [|now split].
  cbn [forallb app]. rewrite E, IH2. split; [now rewrite <- IH1 | reflexivity].
Qed.

Lemma lstrip_spaces (ws X : str) (c : ascii) :
  forallb is_space ws = true -> is_space c = false ->
  lstrip (ws ++ c :: X) = c :: X.
Proof.
  intros Hws Hc. induction ws as [|w ws IH]; simpl.
  - now rewrite Hc.
  - simpl in Hws. apply andb_true_iff in Hws as [-> Hws]. now apply IH.
Qed.

Lemma spaces_quote_free (ws : str) :
  forallb is_space ws = true -> quote_free ws = true.
Proof.
  unfold quote_free. rewrite !forallb_forall. intros H c Hc.
  specialize (H c Hc). destruct (Ascii.eqb_spec c dquote) as [-> | _];
    [discriminate H | reflexivity].
Qed.

Lemma header_quote_free (name U : str) :
  quote_free name = true -> is_header name U -> quote_free U = true.
Proof.
  intros Hn [ws1 [ws2 [-> [H1 H2]]]]. unfold quote_free in *.
  rewrite !forallb_app. cbn [forallb].
  fold (quote_free ws1) (quote_free ws2).
  now rewrite Hn, (spaces_quote_free _ H1), (spaces_quote_free _ H2).
Qed.

Lemma run_of_shape (U X : str) :
  quote_free U = true -> (X = [] \/ exists X', X = dquote :: X') ->
  unquoted_run (U ++ X) = U.
Proof.
  intros HU HX. induction U as [|c U IH]; simpl.
  - destruct HX as [-> | [X' ->]]; [reflexivity|].
    cbn [unquoted_run]. now rewrite Ascii.eqb_refl.
  - unfold quote_free in HU. cbn [forallb] in HU.
    apply andb_true_iff in HU as [Hc HU]. apply negb_true_iff in Hc.
    rewrite Hc. f_equal. now apply IH.
Qed.

(** A text of the shape of a match is matched, with its value. *)
Lemma match_assignment_complete (name U value post : str) :
  is_header name U -> value <> [] -> quote_free value = true ->
  match_assignment name (U ++ dquote :: value ++ dquote :: post) = Some value.
Proof.
  intros [ws1 [ws2 [-> [H1 H2]]]] Hne Hq. unfold match_assignment.
  rewrite <- !app_assoc. rewrite starts_with_app.
  rewrite skipn_app, skipn_all, Nat.sub_diag. cbn [skipn app].
  rewrite (lstrip_spaces ws1 _ "="%char H1 eq_refl).
  change (Ascii.eqb "=" "=") with true. cbv iota.
  rewrite (lstrip_spaces ws2 _ dquote H2 eq_refl).
  rewrite Ascii.eqb_refl.
  rewrite (run_of_shape value (dquote :: post) Hq) by eauto.
  rewrite skipn_app, skipn_all, Nat.sub_diag. cbn [skipn app].
  rewrite Ascii.eqb_refl. destruct value; [congruence | reflexivity].
Qed.

(** [match_groups] succeeds where [match_assignment] does, on the same
    value, and group 1 is the text up to the opening quote. *)
Lemma match_groups_spec (name t : str) :
  match match_groups name t with
  | Some (g1, value) =>
      exists U post,
        is_header name U /\ g1 = U ++ [dquote]
        /\ t = g1 ++ value ++ dquote :: post
        /\ value <> [] /\ quote_free value = true
        /\ match_assignment name t = Some value
  | None => match_assignment name t = None
  end.
Proof.
  unfold match_groups, match_assignment.
  destruct (starts_with name t) eqn:En; [|reflexivity].
  apply starts_with_iff in En as [r ->].
  rewrite skipn_app, skipn_all, Nat.sub_diag. cbn [skipn app].
  destruct (take_spaces_lstrip r) as [Hr Hws1].
  destruct (lstrip r) as [|c r1] eqn:E1; [reflexivity|].
  destruct (Ascii.eqb_spec c "=") as [-> | _]; [|reflexivity].
  destruct (take_spaces_lstrip r1) as [Hr1 Hws2].
  destruct (lstrip r1) as [|q v0] eqn:E2; [reflexivity|].
  destruct (Ascii.eqb_spec q dquote) as [-> | _]; [|reflexivity].
  destruct (unquoted_run_spec v0) as [Hrun Hv0].
  destruct (unquoted_run v0) as [|v1 vs] eqn:Ev; [reflexivity|].
  destruct (skipn (length (v1 :: vs)) v0) as [|q' post] eqn:Es; [reflexivity|].
  destruct (Ascii.eqb_spec q' dquote) as [-> | _]; [|reflexivity].
  exists (name ++ take_spaces r ++ "="%char :: take_spaces r1), post.
  split; [exists (take_spaces r), (take_spaces r1); now repeat split|].
  split; [now rewrite <- !app_assoc|].
  split.
  - rewrite Hr at 1. rewrite Hr1 at 1. rewrite Hv0 at 1.
    rewrite <- !app_assoc. simpl. rewrite <- !app_assoc. reflexivity.
  - split; [discriminate|]. now split.
Qed.

Section Scan.

Variable name : str.
Variable f : str -> str -> str -> str.
Variable v : str.
Hypothesis f_spec : forall g0 g1 g2, f g0 g1 g2 = g1 ++ v ++ g2.
Hypothesis name_quote_free : quote_free name = true.

Lemma sub_scan_skip (a b : str) :
  sub_scan name f (length a) (a ++ b) = sub_scan name f 0 b.
Proof. induction a as [|c a IH]; simpl; [reflexivity | exact IH]. Qed.

Lemma sub_scan_none (c : ascii) (t : str) :
  match_groups name (c :: t) = None ->
  sub_scan name f 0 (c :: t) = c :: sub_scan name f 0 t.
Proof. intros H. cbn [sub_scan]. now rewrite H. Qed.

Lemma sub_scan_match (t g1 value post : str) :
  match_groups name t = Some (g1, value) ->
  t = g1 ++ value ++ dquote :: post ->
  g1 <> [] ->
  sub_scan name f 0 t = g1 ++ v ++ dquote :: sub_scan name f 0 post.
Proof.
  intros Hm Ht Hg. destruct t as [|c r].
  - destruct g1; [congruence | discriminate Ht].
  - cbn [sub_scan]. rewrite Hm, f_spec. rewrite <- !app_assoc.
    do 2 f_equal. cbn [app]. f_equal.
    destruct g1 as [|g g1]; [congruence|]. simpl in Ht. injection Ht as _ ->.
    replace (length (g :: g1) + length value)
      with (length (g1 ++ value ++ [dquote]))
      by (rewrite !length_app; simpl; lia).
    replace (g1 ++ value ++ dquote :: post)
      with ((g1 ++ value ++ [dquote]) ++ post)
      by (rewrite <- !app_assoc; reflexivity).
    apply sub_scan_skip.
Qed.

(** The scan up to the first double quote: it copies the text in front
    of it; behind it stands the value of a match of the scan, or the
    scan goes on. *)
Lemma scan_structure (t : str) :
  exists rt ro,
    t = unquoted_run t ++ rt
    /\ sub_scan name f 0 t = unquoted_run t ++ ro
    /\ ((rt = [] /\ ro = [])
        \/ exists t1 o1,
             rt = dquote :: t1 /\ ro = dquote :: o1
             /\ ((exists val post,
                     val <> [] /\ quote_free val = true
                     /\ t1 = val ++ dquote :: post)
                 \/ o1 = sub_scan name f 0 t1)).
Proof.
  induction t as [|c t IH].
  - exists [], []. split; [reflexivity|]. split; [reflexivity|]. now left.
  - pose proof (match_groups_spec name (c :: t)) as Hspec.
    destruct (match_groups name (c :: t)) as [[g1 value]|] eqn:Em.
    + destruct Hspec as [U [post [HU [-> [Ht [Hne [Hq _]]]]]]].
      pose proof (header_quote_free _ _ name_quote_free HU) as HUq.
      rewrite (sub_scan_match _ _ _ _ Em Ht) by (destruct U; discriminate).
      rewrite Ht. rewrite <- !app_assoc. cbn [app].
      rewrite (run_of_shape U _ HUq) by eauto.
      exists (dquote :: value ++ dquote :: post),
             (dquote :: v ++ dquote :: sub_scan name f 0 post).
      split; [reflexivity|]. split; [reflexivity|]. right.
      exists (value ++ dquote :: post), (v ++ dquote :: sub_scan name f 0 post).
      split; [reflexivity|]. split; [reflexivity|]. left. now exists value, post.
    + rewrite (sub_scan_none _ _ Em). cbn [unquoted_run].
      destruct (Ascii.eqb_spec c dquote) as [-> | Hc].
      * exists (dquote :: t), (dquote :: sub_scan name f 0 t).
        split; [reflexivity|]. split; [reflexivity|]. right.
        exists t, (sub_scan name f 0 t). now repeat split; right.
      * destruct IH as [rt [ro [H1 [H2 H3]]]]. exists rt, ro.
        split; [simpl; now rewrite <- H1|].
        split; [simpl; now rewrite <- H2 | exact H3].
Qed.

End Scan.

End VersionFilesFacts.

Module VersionRoundTrip.

Import VersionFiles VersionSearch VersionFilesFacts.

Section Scan.

Variable name : str.
Variable f : str -> str -> str -> str.
Variable v : str.
Hypothesis f_spec : forall g0 g1 g2, f g0 g1 g2 = g1 ++ v ++ g2.
Hypothesis name_quote_free : quote_free name = true.
Hypothesis v_not_empty : v <> [].
Hypothesis v_quote_free : quote_free v = true.

Local Abbreviation sub := (sub_scan name f 0).

(** The scan of a text ends the text in front of its first double quote
    where the text ends it. *)
Lemma scan_run (t : str) : unquoted_run (sub t) = unquoted_run t.
Proof.
  destruct (scan_structure name f v f_spec name_quote_free t)
    as [rt [ro [_ [Ho Hcase]]]].
  rewrite Ho. apply run_of_shape.
  - apply unquoted_run_spec.
  - destruct Hcase as [[_ ->] | [t1 [o1 [_ [-> _]]]]]; eauto.
Qed.

(** No match attempt succeeds on the scanned text where it failed on the
    text. *)
Lemma scan_no_new_match (t : str) :
  match_assignment name t = None -> match_assignment name (sub t) = None.
Proof.
  intros Hnone.
  destruct (match_assignment name (sub t)) as [v'|] eqn:E; [exfalso | reflexivity].
  apply match_assignment_sound in E as [Hne [Hq [ws1 [ws2 [post' [Ho [H1 H2]]]]]]].
  set (U := name ++ ws1 ++ "="%char :: ws2).
  assert (HU : is_header name U) by (exists ws1, ws2; now repeat split).
  assert (Ho' : sub t = U ++ dquote :: v' ++ dquote :: post').
  { rewrite Ho. unfold U. rewrite <- !app_assoc. reflexivity. }
  pose proof (header_quote_free _ _ name_quote_free HU) as HUq.
  assert (Hrun : unquoted_run t = U).
  { rewrite <- scan_run, Ho'. apply run_of_shape; eauto. }
  destruct (scan_structure name f v f_spec name_quote_free t)
    as [rt [ro [Ht [Hsub Hcase]]]].
  rewrite Hrun in Ht, Hsub. rewrite Ho' in Hsub.
  apply app_inv_head in Hsub.
  destruct Hcase as [[_ ->] | [t1 [o1 [-> [-> Hcase]]]]]; [discriminate Hsub|].
  injection Hsub as Ho1.
  destruct Hcase as [[val [post [Hval [Hvq ->]]]] | ->].
  - rewrite Ht, (match_assignment_complete _ _ _ _ HU Hval Hvq) in Hnone.
    discriminate Hnone.
  - destruct (scan_structure name f v f_spec name_quote_free t1)
      as [rt1 [ro1 [Ht1 [Hsub1 Hcase1]]]].
    assert (Hrun1 : unquoted_run t1 = v').
    { rewrite <- scan_run. rewrite <- Ho1.
      apply run_of_shape; eauto. }
    rewrite Hrun1 in Ht1, Hsub1. rewrite <- Ho1 in Hsub1.
    apply app_inv_head in Hsub1.
    destruct Hcase1 as [[_ ->] | [t2 [o2 [-> _]]]]; [discriminate Hsub1|].
    rewrite Ht, Ht1, (match_assignment_complete _ _ _ _ HU Hne Hq) in Hnone.
    discriminate Hnone.
Qed.

(** Where the search finds a version, it finds the new one after the
    scan. *)
Lemma search_after_scan (t old : str) :
  search_assignment name t = Some old ->
  search_assignment name (sub t) = Some v.
Proof.
  induction t as [|c t IH]; intros Hs.
  - cbn [search_assignment] in Hs.
    pose proof (match_groups_spec name []) as Hspec.
    destruct (match_groups name []) as [[g1 value]|].
    + destruct Hspec as [U [post [_ [-> [Ht _]]]]]. destruct U; discriminate Ht.
    + rewrite Hspec in Hs. discriminate Hs.
  - pose proof (match_groups_spec name (c :: t)) as Hspec.
    destruct (match_groups name (c :: t)) as [[g1 value]|] eqn:Em.
    + destruct Hspec as [U [post [HU [-> [Ht _]]]]].
      rewrite (sub_scan_match name f v f_spec _ _ _ _ Em Ht)
        by (destruct U; discriminate).
      rewrite <- !app_assoc. cbn [app].
      pose proof (match_assignment_complete name U v (sub_scan name f 0 post)
                    HU v_not_empty v_quote_free) as Hm.
      destruct (U ++ dquote :: v ++ dquote :: sub_scan name f 0 post)
        as [|x rest] eqn:Ex; cbn [search_assignment]; now rewrite Hm.
    + pose proof (scan_no_new_match (c :: t) Hspec) as Hnew.
      rewrite (sub_scan_none name f _ _ Em) in *.
      cbn [search_assignment] in *. rewrite Hnew. rewrite Hspec in Hs.
      now apply IH.
Qed.

(** A text in which the search finds nothing is left as it is. *)
Lemma scan_without_match (t : str) :
  search_assignment name t = None -> sub t = t.
Proof.
  induction t as [|c t IH]; intros Hs; [reflexivity|].
  cbn [search_assignment] in Hs.
  destruct (match_assignment name (c :: t)) eqn:E; [discriminate Hs|].
  pose proof (match_groups_spec name (c :: t)) as Hspec.
  destruct (match_groups name (c :: t)) as [[g1 value]|] eqn:Em.
  - destruct Hspec as [U [post [_ [_ [_ [_ [_ H]]]]]]]. congruence.
  - rewrite (sub_scan_none name f _ _ Em). f_equal.
    now apply IH.
Qed.

End Scan.

End VersionRoundTrip.

Import VersionFiles VersionRoundTrip.

(** X21: writing a version and reading it back.  When each file holds a
    version assignment and the new version is not empty, free of double
    quotes, and put into the replacement as plain text by the template
    compiler, [get_current_version] on the files that
    [update_version_files] has written returns the new version for both. *)
Theorem update_version_files_round_trip (compile_template : template_compiler)
    (new_version pyproject_content init_content old1 old2 : str)
    (repl : str -> str -> str -> str) :
  compile_template (lit "\g<1>" ++ new_version ++ lit "\g<2>") = Returns repl ->
  (forall g0 g1 g2, repl g0 g1 g2 = g1 ++ new_version ++ g2) ->
  new_version <> [] -> quote_free new_version = true ->
  search_assignment pyproject_name pyproject_content = Some old1 ->
  search_assignment init_name init_content = Some old2 ->
  exists pyproject_content' init_content',
    update_version_files compile_template new_version pyproject_content
      init_content
    = Returns (pyproject_content', init_content')
    /\ get_current_version pyproject_content' init_content'
       = Returns (new_version, new_version).
Proof.
  intros Hc Hrepl Hne Hq H1 H2. unfold update_version_files.
  rewrite Hc. cbn [bind]. do 2 eexists. split; [reflexivity|].
  unfold get_current_version.
  rewrite (search_after_scan pyproject_name repl new_version Hrepl eq_refl
             Hne Hq _ _ H1).
  rewrite (search_after_scan init_name repl new_version Hrepl eq_refl
             Hne Hq _ _ H2).
  replace (str_eqb new_version new_version) with true
    by (symmetry; now apply str_eqb_eq).
  reflexivity.
Qed.

Lemma update_version_files_round_trip_witness :
  exists pyproject_content' init_content',
    update_version_files plain_template (lit "0.4.0")
      (join_lines [lit "[project]"; lit "version = " ++ quoted (lit "0.3.1"); lit ""])
      (join_lines [lit "__version__ = " ++ quoted (lit "0.3.1"); lit ""])
    = Returns (pyproject_content', init_content')
    /\ get_current_version pyproject_content' init_content'
       = Returns (lit "0.4.0", lit "0.4.0").
Proof.
  apply (update_version_files_round_trip plain_template (lit "0.4.0")
           (join_lines [lit "[project]"; lit "version = " ++ quoted (lit "0.3.1");
                        lit ""])
           (join_lines [lit "__version__ = " ++ quoted (lit "0.3.1"); lit ""])
           (lit "0.3.1") (lit "0.3.1")
           (fun _ g1 g2 => g1 ++ lit "0.4.0" ++ g2));
    [reflexivity | reflexivity | discriminate | reflexivity | reflexivity
    | reflexivity].
Defined.

(** X22: [update_version_files] leaves a file in which the search of
    [get_current_version] finds no version as it is: it adds none. *)
Theorem update_version_files_adds_none (compile_template : template_compiler)
    (new_version pyproject_content init_content : str)
    (repl : str -> str -> str -> str) :
  compile_template (lit "\g<1>" ++ new_version ++ lit "\g<2>") = Returns repl ->
  exists pyproject_content' init_content',
    update_version_files compile_template new_version pyproject_content
      init_content
    = Returns (pyproject_content', init_content')
    /\ (search_assignment pyproject_name pyproject_content = None ->
        pyproject_content' = pyproject_content)
    /\ (search_assignment init_name init_content = None ->
        init_content' = init_content).
Proof.
  intros Hc. unfold update_version_files. rewrite Hc. cbn [bind].
  do 2 eexists. split; [reflexivity|]. split; intros H.
  - now apply scan_without_match.
  - now apply scan_without_match.
Qed.

Lemma update_version_files_adds_none_witness :
  exists pyproject_content' init_content',
    update_version_files plain_template (lit "0.4.0")
      (join_lines [lit "[project]"; lit "name = x"]) (lit "# empty")
    = Returns (pyproject_content', init_content')
    /\ (search_assignment pyproject_name
          (join_lines [lit "[project]"; lit "name = x"]) = None ->
        pyproject_content' = join_lines [lit "[project]"; lit "name = x"])
    /\ (search_assignment init_name (lit "# empty") = None ->
        init_content' = lit "# empty").
Proof.
  apply (update_version_files_adds_none plain_template (lit "0.4.0")
           (join_lines [lit "[project]"; lit "name = x"]) (lit "# empty")
           (fun _ g1 g2 => g1 ++ lit "0.4.0" ++ g2)).
  reflexivity.
Defined.

Module ReleaseFlow.

Lemma plain_not_quote (c : ascii) :
  plain c = true -> Ascii.eqb c dquote = false.
Proof.
  destruct c as [[] [] [] [] [] [] [] []]; intros H;
    solve [discriminate H | reflexivity].
Qed.

Lemma version_string_ok (a b c : Z) :
  version_string a b c <> [] /\ quote_free (version_string a b c) = true.
Proof.
  split.
  - unfold version_string. intros H. apply app_eq_nil in H as [_ H].
    discriminate H.
  - unfold quote_free, version_string. rewrite !forallb_app. cbn [forallb].
    rewrite forallb_app. cbn [forallb].
    assert (H : forall z, forallb (fun x => negb (Ascii.eqb x dquote)) (str_of_Z z)
                          = true).
    { intros z. pose proof (str_of_Z_plain z) as Hz.
      rewrite forallb_forall in *. intros x Hx.
      now rewrite (plain_not_quote _ (Hz x Hx)). }
    now rewrite !H.
Qed.

End ReleaseFlow.

(** X23: the version steps of [prepare_release] fit together.  When
    [get_current_version] returns a version, [bump_version] returns the
    next one for it and the template compiler puts that into the
    replacement as plain text, then after [update_version_files]
    [get_current_version] returns the next version for both files. *)
Theorem prepare_release_version_steps (compile_template : template_compiler)
    (pyproject_content init_content current current' version_type new_version : str)
    (repl : str -> str -> str -> str) :
  get_current_version pyproject_content init_content
  = Returns (current, current') ->
  bump_version current version_type = Returns new_version ->
  compile_template (lit "\g<1>" ++ new_version ++ lit "\g<2>") = Returns repl ->
  (forall g0 g1 g2, repl g0 g1 g2 = g1 ++ new_version ++ g2) ->
  exists pyproject_content' init_content',
    update_version_files compile_template new_version pyproject_content
      init_content
    = Returns (pyproject_content', init_content')
    /\ get_current_version pyproject_content' init_content'
       = Returns (new_version, new_version).
Proof.
  intros Hget Hbump Hc Hrepl.
  destruct (bump_version_returns _ _ _ Hbump) as [a [b [c Hs]]].
  assert (Hnew : exists a' b' c', new_version = version_string a' b' c').
  { rewrite (bump_version_parsed _ _ _ _ _ Hs) in Hbump.
    destruct (str_eqb version_type (lit "patch"));
      [injection Hbump as <-; eauto|].
    destruct (str_eqb version_type (lit "minor"));
      [injection Hbump as <-; eauto|].
    destruct (str_eqb version_type (lit "major"));
      [injection Hbump as <-; eauto | discriminate Hbump]. }
  destruct Hnew as [a' [b' [c' Hnew]]].
  destruct (ReleaseFlow.version_string_ok a' b' c') as [Hne Hq].
  rewrite <- Hnew in Hne, Hq.
  unfold get_current_version in Hget.
  destruct (search_assignment pyproject_name pyproject_content) as [old1|] eqn:E1;
    [|discriminate Hget].
  destruct (search_assignment init_name init_content) as [old2|] eqn:E2;
    [|discriminate Hget].
  unfold update_version_files. rewrite Hc. cbn [bind].
  do 2 eexists. split; [reflexivity|].
  unfold get_current_version.
  rewrite (search_after_scan pyproject_name repl new_version Hrepl eq_refl
             Hne Hq _ _ E1).
  rewrite (search_after_scan init_name repl new_version Hrepl eq_refl
             Hne Hq _ _ E2).
  replace (str_eqb new_version new_version) with true
    by (symmetry; now apply str_eqb_eq).
  reflexivity.
Qed.

Lemma prepare_release_version_steps_witness :
  exists pyproject_content' init_content',
    update_version_files plain_template (lit "0.4.0")
      (join_lines [lit "[project]"; lit "version = " ++ quoted (lit "0.3.1"); lit ""])
      (join_lines [lit "__version__ = " ++ quoted (lit "0.3.1"); lit ""])
    = Returns (pyproject_content', init_content')
    /\ get_current_version pyproject_content' init_content'
       = Returns (lit "0.4.0", lit "0.4.0").
Proof.
  apply (prepare_release_version_steps plain_template
           (join_lines [lit "[project]"; lit "version = " ++ quoted (lit "0.3.1");
                        lit ""])
           (join_lines [lit "__version__ = " ++ quoted (lit "0.3.1"); lit ""])
           (lit "0.3.1") (lit "0.3.1") (lit "minor") (lit "0.4.0")
           (fun _ g1 g2 => g1 ++ lit "0.4.0" ++ g2));
    reflexivity.
Defined.

(** ** The package name of a new project *)

Module CliFacts.

Import Cli.

Lemma replace_hyphens (t : str) :
  replace t (lit "-") (lit "_") = map hyphen_to_underscore t.
Proof.
  unfold replace. change (lit "-") with ["-"%char]. change (lit "_") with ["_"%char].
  induction t as [|c t IH]; [reflexivity|].
  change (replace_scan ["-"%char] ["_"%char] 0 (c :: t))
    with (if Ascii.eqb "-" c && true
          then "_"%char :: replace_scan ["-"%char] ["_"%char] 0 t
          else c :: replace_scan ["-"%char] ["_"%char] 0 t).
  rewrite andb_true_r, IH. cbn [map]. unfold hyphen_to_underscore at 3.
  now destruct (Ascii.eqb "-" c).
Qed.

Lemma no_hyphen_left (t : str) :
  str_in (lit "-") (map hyphen_to_underscore t) = false.
Proof.
  induction t as [|c t IH]; [reflexivity|].
  change (map hyphen_to_underscore (c :: t))
    with (hyphen_to_underscore c :: map hyphen_to_underscore t).
  change (str_in (lit "-") (hyphen_to_underscore c :: map hyphen_to_underscore t))
    with (Ascii.eqb "-" (hyphen_to_underscore c) && true
          || str_in (lit "-") (map hyphen_to_underscore t)).
  rewrite IH, andb_true_r, orb_false_r. unfold hyphen_to_underscore.
  destruct (Ascii.eqb "-" c) eqn:E; [reflexivity | exact E].
Qed.

Lemma hyphen_to_underscore_space (c : ascii) :
  is_space (hyphen_to_underscore c) = is_space c.
Proof.
  unfold hyphen_to_underscore.
  destruct (Ascii.eqb_spec "-"%char c) as [E | _]; [subst c|]; reflexivity.
Qed.

Lemma lstrip_head (t : str) (c : ascii) (r : str) :
  lstrip t = c :: r -> is_space c = false.
Proof.
  induction t as [|x t IH]; [discriminate|]. cbn [lstrip].
  destruct (is_space x) eqn:E; [exact IH|]. now intros [= <- _].
Qed.

Lemma lstrip_fixed (t : str) :
  (forall c r, t = c :: r -> is_space c = false) -> lstrip t = t.
Proof.
  destruct t as [|c t]; [reflexivity|]. intros H. cbn [lstrip].
  now rewrite (H c t eq_refl).
Qed.

(** A stripped text starts and ends with no whitespace. *)
Lemma strip_ends (u : str) :
  (forall c r, strip u = c :: r -> is_space c = false)
  /\ (forall c r, rev (strip u) = c :: r -> is_space c = false).
Proof.
  unfold strip, rstrip. split; intros c r H.
  - destruct (rstrip_split (lstrip u)) as [ws [Hx _]].
    unfold rstrip in Hx. rewrite H in Hx.
    apply (lstrip_head u c (r ++ ws)). exact Hx.
  - rewrite rev_involutive in H. now apply (lstrip_head _ _ _ H).
Qed.

Lemma strip_fixed (t : str) :
  (forall c r, t = c :: r -> is_space c = false) ->
  (forall c r, rev t = c :: r -> is_space c = false) ->
  strip t = t.
Proof.
  intros H1 H2. unfold strip, rstrip.
  rewrite (lstrip_fixed t H1), (lstrip_fixed (rev t) H2).
  apply rev_involutive.
Qed.

End CliFacts.

(** X24: the package name [new] derives holds no hyphen and neither
    starts nor ends with whitespace, whatever [--package] and the project
    name are. *)
Theorem package_name_normalised (package : option str) (project_name : str) :
  str_in (lit "-") (Cli.package_name package project_name) = false
  /\ strip (Cli.package_name package project_name)
     = Cli.package_name package project_name.
Proof.
  unfold Cli.package_name. cbv zeta. rewrite CliFacts.replace_hyphens.
  split; [apply CliFacts.no_hyphen_left|].
  set (chosen := match package with
                 | Some ((_ :: _) as given) => given
                 | _ => project_name
                 end).
  destruct (CliFacts.strip_ends chosen) as [H1 H2].
  apply CliFacts.strip_fixed.
  - intros c r H. destruct (strip chosen) as [|x s]; simpl in H;
      [discriminate H|]. injection H as <- _.
    rewrite CliFacts.hyphen_to_underscore_space. now apply (H1 x s).
  - intros c r H. rewrite <- map_rev in H.
    destruct (rev (strip chosen)) as [|x s]; simpl in H; [discriminate H|].
    injection H as <- _.
    rewrite CliFacts.hyphen_to_underscore_space. now apply (H2 x s).
Qed.

(** ** The DI wiring *)

Module WiringFacts.

Import Wiring.

(** The appended function holds the head that the guard looks for. *)
Lemma register_function_has_head (bc name Entity : str) :
  str_in (func_head name) (register_function bc name Entity) = true.
Proof.
  apply str_in_iff. unfold register_function, func_head.
  exists [nl; nl; nl]. eexists.
  change (lit "(container: Container) -> None:")
    with (lit "(container" ++ lit ": Container) -> None:").
  rewrite <- !app_assoc. reflexivity.
Qed.

(** What the register-function step returns holds the head and every
    text the input held. *)
Lemma register_step_holds (bc name Entity w x : str) :
  let w' := if negb (str_in (func_head name) w)
            then w ++ register_function bc name Entity else w in
  str_in (func_head name) w' = true
  /\ (str_in x w = true -> str_in x w' = true).
Proof.
  cbv zeta. destruct (str_in (func_head name) w) eqn:E; cbn [negb].
  - now split.
  - split.
    + pose proof (str_in_app _ _ w [] (register_function_has_head bc name Entity))
        as H.
      now rewrite app_nil_r in H.
    + apply str_in_app_l.
Qed.

End WiringFacts.

(** X25: the first two steps of [resource] on di_wiring.py, the imports
    and the function [register_NAME], can be repeated.  For a pattern
    that compiles they return a text that holds both imports and the head
    of the function, and on that text they change nothing. *)
Theorem wiring_steps_idempotent (rs : searcher) (pkg bc name Entity w : str) :
  (forall t, rs Wiring.after_pattern t false <> SearchError) ->
  exists w',
    Wiring.wiring_steps rs pkg bc name Entity w = Returns w'
    /\ str_in (Wiring.import_repo pkg bc Entity
               ++ Wiring.import_service pkg bc Entity) w' = true
    /\ str_in (Wiring.func_head name) w' = true
    /\ Wiring.wiring_steps rs pkg bc name Entity w' = Returns w'.
Proof.
  intros Hok. unfold Wiring.wiring_steps.
  set (payload := Wiring.import_repo pkg bc Entity
                  ++ Wiring.import_service pkg bc Entity).
  destruct (insert_after_line rs w Wiring.after_pattern payload) as [w1|e] eqn:E1.
  - cbn [bind].
    pose proof (AfterLine.insert_after_line_holds _ _ _ _ _ E1) as Hp1.
    destruct (WiringFacts.register_step_holds bc name Entity w1 payload)
      as [Hhead Hkeep].
    specialize (Hkeep Hp1).
    set (w2 := if negb (str_in (Wiring.func_head name) w1)
               then w1 ++ Wiring.register_function bc name Entity else w1) in *.
    exists w2. split; [reflexivity|]. split; [exact Hkeep|]. split; [exact Hhead|].
    assert (E2 : insert_after_line rs w2 Wiring.after_pattern payload = Returns w2).
    { unfold insert_after_line. pose proof (Hok w2) as H.
      destruct (rs Wiring.after_pattern w2 false); [congruence | |];
        now rewrite Hkeep. }
    rewrite E2. cbn [bind]. now rewrite Hhead.
  - exfalso. unfold insert_after_line in E1. pose proof (Hok w) as H.
    destruct (rs Wiring.after_pattern w false); [congruence | |];
      discriminate E1.
Qed.

Lemma wiring_steps_idempotent_witness :
  exists w',
    Wiring.wiring_steps literal_search (lit "shop") (lit "catalog")
      (lit "product") (lit "Product") (lit "# wiring") = Returns w'
    /\ str_in (Wiring.import_repo (lit "shop") (lit "catalog") (lit "Product")
               ++ Wiring.import_service (lit "shop") (lit "catalog") (lit "Product"))
         w' = true
    /\ str_in (Wiring.func_head (lit "product")) w' = true
    /\ Wiring.wiring_steps literal_search (lit "shop") (lit "catalog")
         (lit "product") (lit "Product") w' = Returns w'.
Proof.
  apply (wiring_steps_idempotent literal_search (lit "shop") (lit "catalog")
           (lit "product") (lit "Product") (lit "# wiring")).
  intros t. unfold literal_search.
  destruct (find Wiring.after_pattern t); discriminate.
Defined.
